(** * secretstore-js: the session client, the RPC client and their utilities

    A shallow embedding of [lib/utils.ts], [lib/client/session.ts],
    [lib/client/rpc.ts] and [lib/client/error.ts], followed by the
    properties of the URL / parameter encoding and of the error paths. *)

From Stdlib Require Import List NArith ZArith Bool Ascii String DecimalString Lia.
Import ListNotations.

Set Implicit Arguments.

(* ================================================================= *)
(** ** JavaScript strings *)

(** A JavaScript string is a sequence of UTF-16 code units.  The code
    below never looks at the 16-bit bound, so a code unit is an [N]. *)
Definition codeunit := N.
Definition jsstring := list codeunit.

(** String literals of the source, written as Rocq strings. *)
Definition lit (s : string) : jsstring :=
  map N_of_ascii (list_ascii_of_string s).

Definition DQUOTE : codeunit := 34%N.
Definition SLASH : codeunit := 47%N.
Definition LF : codeunit := 10%N.
Definition CR : codeunit := 13%N.
Definition LS : codeunit := 8232%N.  (* U+2028 *)
Definition PS : codeunit := 8233%N.  (* U+2029 *)

Module JsStr.

(** [String.prototype.startsWith(search)], position 0. *)
Fixpoint startsWith (s search : jsstring) {struct search} : bool :=
  match search with
  | [] => true
  | c :: search' =>
      match s with
      | [] => false
      | d :: s' => N.eqb d c && startsWith s' search'
      end
  end.

(** [String.prototype.endsWith(search)], end position = length. *)
Definition endsWith (s search : jsstring) : bool :=
  (List.length search <=? List.length s)%nat
  && startsWith (skipn (List.length s - List.length search) s) search.

(** Relative index of [slice]: negative counts from the end, then the
    index is clamped to [0 .. len]. *)
Definition relative_index (len i : Z) : Z :=
  if (i <? 0)%Z then Z.max (len + i) 0 else Z.min i len.

(** [String.prototype.slice(start, end)]; [end] is optional. *)
Definition slice (s : jsstring) (start : Z) (end_ : option Z) : jsstring :=
  let len := Z.of_nat (List.length s) in
  let from := relative_index len start in
  let to := match end_ with
            | None => len
            | Some e => relative_index len e
            end in
  firstn (Z.to_nat (to - from)) (skipn (Z.to_nat from) s).

(** [Array.prototype.join(sep)] on an array of strings. *)
Fixpoint join (sep : jsstring) (parts : list jsstring) : jsstring :=
  match parts with
  | [] => []
  | [p] => p
  | p :: rest => p ++ sep ++ join sep rest
  end.

(** How a template literal prints a non-negative integer below 10^21,
    in plain decimal digits: the status codes and the thresholds.  (From
    10^21 on JavaScript prints an exponent; no such number is a status
    code or a threshold of a cluster.) *)
Definition ofNumber (n : N) : jsstring :=
  lit (NilEmpty.string_of_uint (N.to_uint n)).

(** [`${v}`] for a string that may be [undefined]. *)
Definition ofOptional (v : option jsstring) : jsstring :=
  match v with
  | Some s => s
  | None => lit "undefined"
  end.

(** [`${a}`] for an array of strings that may be [undefined]. *)
Definition ofOptionalArray (a : option (list jsstring)) : jsstring :=
  match a with
  | Some xs => join (lit ",") xs
  | None => lit "undefined"
  end.

(** The line terminators, which [.] of a regular expression without
    the [s] flag refuses. *)
Definition isLineTerminator (c : codeunit) : bool :=
  N.eqb c LF || N.eqb c CR || N.eqb c LS || N.eqb c PS.

End JsStr.

(** Truthiness of a value typed [string] that may be [undefined] at run
    time: [undefined] and the empty string are falsy.  A truthy value is
    handed back as the string it is. *)
Definition truthy (val : option jsstring) : option jsstring :=
  match val with
  | Some (c :: s) => Some (c :: s)
  | Some [] => None
  | None => None
  end.

Definition falsy (val : option jsstring) : Prop := truthy val = None.

(* ================================================================= *)
(** ** lib/utils.ts *)

(** [remove0x]: [if (!val) return ''; return val.startsWith('0x') ?
    val.slice(2) : val]. *)
Definition remove0x (val : option jsstring) : jsstring :=
  match truthy val with
  | None => []
  | Some v => if JsStr.startsWith v (lit "0x") then JsStr.slice v 2 None else v
  end.

(** [ensure0x]: [str.startsWith('0x') ? str : `0x${str}`]. *)
Definition ensure0x (str : jsstring) : jsstring :=
  if JsStr.startsWith str (lit "0x") then str else lit "0x" ++ str.

(* ================================================================= *)
(** ** Regular expressions, as far as the utilities use them *)

Module Regex.

(** What consumes one code unit: a literal, or [.], which without the
    [s] flag refuses the line terminators. *)
Inductive Atom : Type :=
| Chr (c : codeunit)
| Dot.

(** The items of a pattern, left to right: the anchors [^] and [$]
    (no [m] flag: start and end of the input), an atom, a greedy
    starred atom, and the parentheses of capture group 1. *)
Inductive Item : Type :=
| Bol
| Eol
| One (a : Atom)
| Star (a : Atom)
| Open
| Close.

Definition accepts (a : Atom) (c : codeunit) : bool :=
  match a with
  | Chr d => N.eqb c d
  | Dot => negb (JsStr.isLineTerminator c)
  end.

(** The state of a match attempt: the index in the input, and capture
    group 1. *)
Record State : Type := {
  position : nat;
  capturing : bool;
  captured : jsstring
}.

Definition start (index : nat) : State :=
  {| position := index; capturing := false; captured := [] |}.

Definition step (st : State) (c : codeunit) : State :=
  {| position := S (position st);
     capturing := capturing st;
     captured := if capturing st then captured st ++ [c] else captured st |}.

Definition open (st : State) : State :=
  {| position := position st; capturing := true; captured := [] |}.

Definition close (st : State) : State :=
  {| position := position st; capturing := false; captured := captured st |}.

(** A backtracking match of the items against the input from the
    current position.  A starred atom takes as many code units as it
    can and gives them back one by one while the rest of the pattern
    fails.  The result is capture group 1 and the input left after the
    match. *)
Fixpoint run (p : list Item) (st : State) (input : jsstring) {struct p}
  : option (jsstring * jsstring) :=
  match p with
  | [] => Some (captured st, input)
  | Bol :: p' =>
      match position st with
      | O => run p' st input
      | S _ => None
      end
  | Eol :: p' =>
      match input with
      | [] => run p' st input
      | _ :: _ => None
      end
  | One a :: p' =>
      match input with
      | c :: rest => if accepts a c then run p' (step st c) rest else None
      | [] => None
      end
  | Star a :: p' =>
      (fix greedy (st : State) (input : jsstring) {struct input} :=
         match input with
         | c :: rest =>
             if accepts a c then
               match greedy (step st c) rest with
               | Some r => Some r
               | None => run p' st input
               end
             else run p' st input
         | [] => run p' st input
         end) st input
  | Open :: p' => run p' (open st) input
  | Close :: p' => run p' (close st) input
  end.

(** The first match, trying the start indices in turn: what precedes
    the match, capture group 1, and what follows the match. *)
Fixpoint search (p : list Item) (before : jsstring) (input : jsstring)
  : option (jsstring * jsstring * jsstring) :=
  match run p (start (List.length before)) input with
  | Some (group1, after) => Some (before, group1, after)
  | None =>
      match input with
      | [] => None
      | c :: rest => search p (before ++ [c]) rest
      end
  end.

(** [str.replace(pattern, '$1')] for a pattern without the [g] flag:
    the first match is replaced by its capture group 1. *)
Definition replace_by_group1 (str : jsstring) (p : list Item) : jsstring :=
  match search p [] str with
  | Some (before, group1, after) => before ++ group1 ++ after
  | None => str
  end.

End Regex.

(** The pattern of [removeEnclosingDQuotes]: [^], a double quote, the
    group of [.*], a double quote, [$]. *)
Definition enclosing_dquotes : list Regex.Item :=
  [Regex.Bol; Regex.One (Regex.Chr DQUOTE);
   Regex.Open; Regex.Star Regex.Dot; Regex.Close;
   Regex.One (Regex.Chr DQUOTE); Regex.Eol].

(** [removeEnclosingDQuotes]: [str.replace(pattern, '$1')]. *)
Definition removeEnclosingDQuotes (str : jsstring) : jsstring :=
  Regex.replace_by_group1 str enclosing_dquotes.

Definition quoted (body : jsstring) : jsstring := DQUOTE :: body ++ [DQUOTE].

(* ================================================================= *)
(** ** Values, requests, responses and errors *)

(** Values of type [any]: what a response body decodes to. *)
#[local] Set Warnings "-register-all".
Inductive JsValue : Type :=
| JsUndefined
| JsNull
| JsBoolean (b : bool)
| JsNumber (n : Z)
| JsString (s : jsstring)
| JsArray (items : list JsValue)
| JsObject (fields : list (jsstring * JsValue)).

(** The values that are not objects. *)
Inductive Primitive : Type :=
| PrimUndefined
| PrimNull
| PrimBoolean (b : bool)
| PrimNumber (n : Z)
| PrimString (s : jsstring).

(** JavaScript truthiness of a value. *)
Definition truthy_value (v : JsValue) : bool :=
  match v with
  | JsUndefined => false
  | JsNull => false
  | JsBoolean b => b
  | JsNumber n => negb (Z.eqb n 0)
  | JsString [] => false
  | JsString (_ :: _) => true
  | JsArray _ => true
  | JsObject _ => true
  end.

(** The value of a key among the fields of an object, which holds each
    key once; [undefined] when the key is absent. *)
Fixpoint field (key : jsstring) (fields : list (jsstring * JsValue)) : JsValue :=
  match fields with
  | [] => JsUndefined
  | (k, v) :: rest =>
      if list_eq_dec N.eq_dec k key then v else field key rest
  end.

(** axios [Method]; the client uses ['get'] and ['post'] only. *)
Inductive Method : Type := GET | POST.

(** The [data] of a request.  The only body the client sends is
    [JSON.stringify(nodeIDsNewSet)]; the JSON text is kept as the array
    it serialises. *)
Inductive RequestBody : Type :=
| JSON_stringify (array : list jsstring).

(** [AxiosRequestConfig]: the three fields every call overwrites, and
    whatever else the caller configured (headers, timeouts, ...). *)
Record AxiosRequestConfig : Type := {
  cfg_url : option jsstring;
  cfg_method : option Method;
  cfg_data : option RequestBody;
  cfg_others : list (jsstring * JsValue)
}.

(** The default [requestConfig = {}] of the constructor. *)
Definition empty_config : AxiosRequestConfig :=
  {| cfg_url := None; cfg_method := None; cfg_data := None; cfg_others := [] |}.

(** [AxiosResponse]: the fields the client reads. *)
Record AxiosResponse : Type := {
  data : JsValue;
  status : N;
  statusText : jsstring;
  config : AxiosRequestConfig
}.

(** What a [throw] or a rejected promise carries. *)
Inductive JsError : Type :=
| Error (message : jsstring)
    (* [new Error(message)] *)
| SecretStoreSessionError (message : jsstring) (meta : AxiosRequestConfig)
    (* lib/client/error.ts: message, [meta], name 'SecretStoreSessionError' *)
| TypeError
    (* raised by the runtime: a property read on [undefined], a call of
       something that is not a function *)
| AxiosError (message : jsstring) (response : option AxiosResponse)
    (* an error made by axios: [isAxiosError] is true, [response] is
       optional *)
| ErrorOf (value : JsValue)
    (* [new Error(value)] for a value that is not a string: the message
       is the string form of the value, kept as the value *)
| Thrown (value : Primitive).
    (* a rejection with a value that is not an object *)

(** [new Error(value)] *)
Definition new_Error (value : JsValue) : JsError :=
  match value with
  | JsString message => Error message
  | _ => ErrorOf value
  end.

(** [error.isAxiosError], as a condition.  Reading a property off
    [undefined] or [null] raises; axios sets the flag on the errors it
    makes; the other errors and the primitive values have no such
    property. *)
Definition isAxiosError (error : JsError) : JsError + bool :=
  match error with
  | AxiosError _ _ => inr true
  | Thrown PrimUndefined => inl TypeError
  | Thrown PrimNull => inl TypeError
  | _ => inr false
  end.

(** [error.response], [undefined] where there is none. *)
Definition error_response (error : JsError) : option AxiosResponse :=
  match error with
  | AxiosError _ response => response
  | _ => None
  end.

(* ================================================================= *)
(** ** Asynchronous calls against a recorded transport *)

(** An [async] method is run against a transport whose invocations are
    recorded, as a spy does in a test: a computation takes the requests
    recorded so far and gives the requests recorded after it together
    with the settlement of its promise, rejection ([inl]) or
    fulfilment ([inr]). *)
Section Async.
Variable Req : Type.

Definition Async (A : Type) : Type := list Req -> list Req * (JsError + A).

Definition ret {A} (a : A) : Async A := fun log => (log, inr a).

Definition throw {A} (e : JsError) : Async A := fun log => (log, inl e).

Definition bind {A B} (m : Async A) (k : A -> Async B) : Async B :=
  fun log =>
    match m log with
    | (log', inr a) => k a log'
    | (log', inl e) => (log', inl e)
    end.

(** [try { m } catch (error) { handler }] *)
Definition try_catch {A} (m : Async A) (handler : JsError -> Async A)
  : Async A :=
  fun log =>
    match m log with
    | (log', inl e) => handler e log'
    | (log', inr a) => (log', inr a)
    end.

(** [await transport(req)]: the request is recorded, the transport
    settles it. *)
Definition await {Resp} (transport : Req -> JsError + Resp) (req : Req)
  : Async Resp :=
  fun log => (log ++ [req], transport req).

Definition issued {A} (m : Async A) (log : list Req) : list Req := fst (m log).
Definition settled {A} (m : Async A) (log : list Req) : JsError + A := snd (m log).
End Async.

Arguments ret {Req A} a.
Arguments throw {Req A} e.
Arguments bind {Req A B} m k.
Arguments try_catch {Req A} m handler.
Arguments await {Req Resp} transport req.
Arguments issued {Req A} m log.
Arguments settled {Req A} m log.

Notation "x <- m ;; k" := (bind m (fun x => k))
  (at level 61, m at next level, right associativity).

(* ================================================================= *)
(** ** lib/client/rpc.ts and lib/client/session.ts: the key objects *)

(** [ExternallyEncryptedDocumentKey].  The session client hands its
    fields to [remove0x], which provides for an absent value, so a field
    may be [undefined] here. *)
Record ExternallyEncryptedDocumentKey : Type := {
  common_point : option jsstring;
  encrypted_key : option jsstring;
  encrypted_point : option jsstring
}.

(** [DocumentKeyPortions], with the fields as the interface declares
    them. *)
Record DocumentKeyPortions : Type := {
  portions_common_point : jsstring;
  decrypted_secret : jsstring;
  decrypt_shadows : list jsstring
}.

(* ================================================================= *)
(** ** lib/client/session.ts: [SecretStoreSessionClient] *)

Record SecretStoreSessionClient : Type := {
  url : jsstring;
  requestConfig : AxiosRequestConfig
}.

(** The third argument of [storeDocumentKey],
    [string | ExternallyEncryptedDocumentKey], which the tests also pass
    as [undefined]. *)
Inductive CommonPointOrKey : Type :=
| NoKey
| CommonPoint (commonPoint : jsstring)
| WholeKey (localDocumentKey : ExternallyEncryptedDocumentKey).

Module Session.

(** The constructor: [requestConfig] defaults to [{}]. *)
Definition new (ssEndpointUrl : option jsstring)
           (requestConfig : option AxiosRequestConfig)
  : JsError + SecretStoreSessionClient :=
  match truthy ssEndpointUrl with
  | None => inl (Error (lit "Secret Store endpoint URL was not given"))
  | Some ssEndpointUrl =>
      inr {| url := if JsStr.endsWith ssEndpointUrl (lit "/")
                    then JsStr.slice ssEndpointUrl 0 (Some (-1)%Z)
                    else ssEndpointUrl;
             requestConfig := match requestConfig with
                              | Some c => c
                              | None => empty_config
                              end |}
  end.

Section Methods.
(** The transport: [axios(config)] settles with a response or
    rejects. *)
Variable axios : AxiosRequestConfig -> JsError + AxiosResponse.
Variable this : SecretStoreSessionClient.

Definition HttpCall := Async AxiosRequestConfig.

(** [removeEnclosingDQuotes(v)] on a value typed [string] by a cast
    only: anything but a string has no [replace] to call. *)
Definition unquote (v : JsValue) : HttpCall jsstring :=
  match v with
  | JsString str => ret (removeEnclosingDQuotes str)
  | _ => throw TypeError
  end.

(** [{ ...this.requestConfig, url, method, data: body }] *)
Definition request (method : Method) (url : jsstring)
           (body : option RequestBody) : AxiosRequestConfig :=
  {| cfg_url := Some url;
     cfg_method := Some method;
     cfg_data := body;
     cfg_others := cfg_others (requestConfig this) |}.

Definition _send (method : Method) (url : jsstring)
           (body : option RequestBody) : HttpCall JsValue :=
  try_catch
    (response <- await axios (request method url body) ;;
     ret (data response))
    (fun error =>
       match isAxiosError error with
       | inl raised => throw raised
       | inr true =>
           match error_response error with
           | Some response =>
               text <- unquote (data response) ;;
               throw (SecretStoreSessionError
                        (statusText response ++ lit " ("
                         ++ JsStr.ofNumber (status response) ++ lit "): "
                         ++ text)
                        (config response))
           | None =>
               (* [response] is [undefined]: reading [statusText] off
                  it raises *)
               throw TypeError
           end
       | inr false => throw error
       end).

Definition generateServerKey (serverKeyID signedServerKeyID : jsstring)
           (threshold : N) : HttpCall jsstring :=
  let url := url this ++ lit "/shadow/" ++ remove0x (Some serverKeyID)
             ++ lit "/" ++ remove0x (Some signedServerKeyID)
             ++ lit "/" ++ JsStr.ofNumber threshold in
  res <- _send POST url None ;; unquote res.

Definition retrieveServerKeyPublic (serverKeyID signedServerKeyID : jsstring)
  : HttpCall jsstring :=
  let url := url this ++ lit "/server/" ++ remove0x (Some serverKeyID)
             ++ lit "/" ++ remove0x (Some signedServerKeyID) in
  res <- _send GET url None ;; unquote res.

Definition storeDocumentKey (serverKeyID signedServerKeyID : jsstring)
           (commonPointOrKey : CommonPointOrKey)
           (encryptedPoint : option jsstring) : HttpCall JsValue :=
  let no_parameters :=
    throw (Error (lit "No document key parameters were given")) in
  let store (cp ep : jsstring) :=
    let url := url this ++ lit "/shadow/" ++ remove0x (Some serverKeyID)
               ++ lit "/" ++ remove0x (Some signedServerKeyID)
               ++ lit "/" ++ cp ++ lit "/" ++ ep in
    _send POST url None in
  match commonPointOrKey with
  | NoKey => no_parameters
  | CommonPoint commonPoint =>
      match truthy (Some commonPoint) with
      | None => no_parameters
      | Some _ =>
          match truthy encryptedPoint with
          | None =>
              throw (Error
                       (lit "Common point was given but no encrypted point ("
                        ++ JsStr.ofOptional encryptedPoint ++ lit ")"))
          | Some _ =>
              store (remove0x (Some commonPoint)) (remove0x encryptedPoint)
          end
      end
  | WholeKey key =>
      store (remove0x (common_point key)) (remove0x (encrypted_point key))
  end.

Definition generateServerAndDocumentKey
           (serverKeyID signedServerKeyID : jsstring) (threshold : N)
  : HttpCall jsstring :=
  let url := url this ++ lit "/" ++ remove0x (Some serverKeyID)
             ++ lit "/" ++ remove0x (Some signedServerKeyID)
             ++ lit "/" ++ JsStr.ofNumber threshold in
  res <- _send POST url None ;; unquote res.

Definition shadowRetrieveDocumentKey
           (serverKeyID signedServerKeyID : jsstring) : HttpCall JsValue :=
  let url := url this ++ lit "/shadow/" ++ remove0x (Some serverKeyID)
             ++ lit "/" ++ remove0x (Some signedServerKeyID) in
  _send GET url None.

Definition retrieveDocumentKey (serverKeyID signedServerKeyID : jsstring)
  : HttpCall jsstring :=
  let url := url this ++ lit "/" ++ remove0x (Some serverKeyID)
             ++ lit "/" ++ remove0x (Some signedServerKeyID) in
  res <- _send GET url None ;; unquote res.

Definition signSchnorr (serverKeyID signedServerKeyID messageHash : jsstring)
  : HttpCall jsstring :=
  let url := url this ++ lit "/schnorr/" ++ remove0x (Some serverKeyID)
             ++ lit "/" ++ remove0x (Some signedServerKeyID)
             ++ lit "/" ++ messageHash in
  res <- _send GET url None ;; unquote res.

Definition signEcdsa (serverKeyID signedServerKeyID messageHash : jsstring)
  : HttpCall jsstring :=
  let url := url this ++ lit "/ecdsa/" ++ remove0x (Some serverKeyID)
             ++ lit "/" ++ remove0x (Some signedServerKeyID)
             ++ lit "/" ++ messageHash in
  res <- _send GET url None ;; unquote res.

Definition nodesSetChange (nodeIDsNewSet : list jsstring)
           (signatureOldSet signatureNewSet : jsstring) : HttpCall jsstring :=
  let url := url this ++ lit "/admin/servers_set_change/"
             ++ remove0x (Some signatureOldSet)
             ++ lit "/" ++ remove0x (Some signatureNewSet) in
  let body := JSON_stringify nodeIDsNewSet in
  res <- _send POST url (Some body) ;; unquote res.

(** The nine operations as one type of calls. *)
Inductive Call : Type :=
| GenerateServerKey (serverKeyID signedServerKeyID : jsstring) (threshold : N)
| RetrieveServerKeyPublic (serverKeyID signedServerKeyID : jsstring)
| StoreDocumentKey (serverKeyID signedServerKeyID : jsstring)
                   (commonPointOrKey : CommonPointOrKey)
                   (encryptedPoint : option jsstring)
| GenerateServerAndDocumentKey (serverKeyID signedServerKeyID : jsstring)
                               (threshold : N)
| ShadowRetrieveDocumentKey (serverKeyID signedServerKeyID : jsstring)
| RetrieveDocumentKey (serverKeyID signedServerKeyID : jsstring)
| SignSchnorr (serverKeyID signedServerKeyID messageHash : jsstring)
| SignEcdsa (serverKeyID signedServerKeyID messageHash : jsstring)
| NodesSetChange (nodeIDsNewSet : list jsstring)
                 (signatureOldSet signatureNewSet : jsstring).

Definition as_value (m : HttpCall jsstring) : HttpCall JsValue :=
  str <- m ;; ret (JsString str).

Definition perform (call : Call) : HttpCall JsValue :=
  match call with
  | GenerateServerKey id sig threshold =>
      as_value (generateServerKey id sig threshold)
  | RetrieveServerKeyPublic id sig =>
      as_value (retrieveServerKeyPublic id sig)
  | StoreDocumentKey id sig commonPointOrKey encryptedPoint =>
      storeDocumentKey id sig commonPointOrKey encryptedPoint
  | GenerateServerAndDocumentKey id sig threshold =>
      as_value (generateServerAndDocumentKey id sig threshold)
  | ShadowRetrieveDocumentKey id sig =>
      shadowRetrieveDocumentKey id sig
  | RetrieveDocumentKey id sig =>
      as_value (retrieveDocumentKey id sig)
  | SignSchnorr id sig messageHash =>
      as_value (signSchnorr id sig messageHash)
  | SignEcdsa id sig messageHash =>
      as_value (signEcdsa id sig messageHash)
  | NodesSetChange nodeIDsNewSet signatureOldSet signatureNewSet =>
      as_value (nodesSetChange nodeIDsNewSet signatureOldSet signatureNewSet)
  end.

End Methods.

End Session.

(* ================================================================= *)
(** ** lib/client/rpc.ts: [SecretStoreRpcApiClient] *)

(** A parameter of an RPC call: a string or an array of strings. *)
Inductive RpcParam : Type :=
| PString (s : jsstring)
| PStrings (xs : list jsstring).

(** [provider.send(method, params)] *)
Record RpcRequest : Type := {
  rpc_method : jsstring;
  rpc_params : list RpcParam
}.

(** What [provider.send] resolves to, typed [any]. *)
Definition RpcResult : Type := JsValue.

(** [res.error]: reading it off [undefined] or [null] raises; an object
    gives its field; the other values have no such property. *)
Definition read_error (res : RpcResult) : JsError + JsValue :=
  match res with
  | JsUndefined => inl TypeError
  | JsNull => inl TypeError
  | JsObject fields => inr (field (lit "error") fields)
  | _ => inr JsUndefined
  end.

(** The fourth argument of [shadowDecrypt],
    [string | DocumentKeyPortions], which the tests also pass as
    [undefined]. *)
Inductive SecretOrPortions : Type :=
| NoPortions
| DecryptedSecret (decryptedSecret : jsstring)
| WholePortions (documentKeyPortions : DocumentKeyPortions).

Module Rpc.

Section Methods.
(** The [provider] of the client, as [send] behaves. *)
Variable provider_send : RpcRequest -> JsError + RpcResult.

Definition RpcCall := Async RpcRequest.

Definition _send (method : jsstring) (params : list RpcParam)
  : RpcCall RpcResult :=
  res <- await provider_send
               {| rpc_method := method; rpc_params := params |} ;;
  match read_error res with
  | inl raised => throw raised
  | inr error =>
      if truthy_value error then throw (new_Error error) else ret res
  end.

Definition signRawHash (account pwd rawhash : jsstring) : RpcCall RpcResult :=
  _send (lit "secretstore_signRawHash")
        [PString account; PString pwd; PString (ensure0x rawhash)].

Definition generateDocumentKey (account pwd serverKey : jsstring)
  : RpcCall RpcResult :=
  _send (lit "secretstore_generateDocumentKey")
        [PString account; PString pwd; PString (ensure0x serverKey)].

Definition encrypt (account pwd hexDocument encryptedDocumentKey : jsstring)
  : RpcCall RpcResult :=
  _send (lit "secretstore_encrypt")
        [PString account; PString pwd;
         PString (ensure0x encryptedDocumentKey);
         PString (ensure0x hexDocument)].

Definition decrypt (account pwd encryptedDocument encryptedDocumentKey : jsstring)
  : RpcCall RpcResult :=
  _send (lit "secretstore_decrypt")
        [PString account; PString pwd;
         PString (ensure0x encryptedDocumentKey);
         PString (ensure0x encryptedDocument)].

Definition shadowDecrypt (account pwd encryptedDocument : jsstring)
           (decryptedSecretOrDocumentKeyPortions : SecretOrPortions)
           (commonPoint : option jsstring)
           (decryptShadows : option (list jsstring)) : RpcCall RpcResult :=
  let not_supplied :=
    throw (Error (lit "Document key portions were not supplied")) in
  match decryptedSecretOrDocumentKeyPortions with
  | NoPortions => not_supplied
  | DecryptedSecret decryptedSecret =>
      match truthy (Some decryptedSecret) with
      | None => not_supplied
      | Some _ =>
          match truthy commonPoint, decryptShadows with
          | Some commonPoint', Some (shadow :: shadows) =>
              _send (lit "secretstore_shadowDecrypt")
                    [PString account; PString pwd;
                     PString (ensure0x decryptedSecret);
                     PString (ensure0x commonPoint');
                     PStrings (shadow :: shadows);
                     PString (ensure0x encryptedDocument)]
          | _, _ =>
              throw (Error
                       (lit "Not enough document key portions were supplied ("
                        ++ decryptedSecret ++ lit ","
                        ++ JsStr.ofOptional commonPoint ++ lit ","
                        ++ JsStr.ofOptionalArray decryptShadows ++ lit ")"))
          end
      end
  | WholePortions portions =>
      _send (lit "secretstore_shadowDecrypt")
            [PString account; PString pwd;
             PString (ensure0x (decrypted_secret portions));
             PString (ensure0x (portions_common_point portions));
             PStrings (decrypt_shadows portions);
             PString (ensure0x encryptedDocument)]
  end.

Definition serversSetHash (nodeIDs : list jsstring) : RpcCall RpcResult :=
  _send (lit "secretstore_serversSetHash") [PStrings nodeIDs].

End Methods.

End Rpc.

(* ================================================================= *)
(** ** Vocabulary of the properties *)

(** A body the [.] of the pattern accepts throughout. *)
Definition no_line_terminator (body : jsstring) : Prop :=
  Forall (fun c => JsStr.isLineTerminator c = false) body.

(** The part of the pattern after the opening parenthesis. *)
Definition body_and_closing_quote : list Regex.Item :=
  [Regex.Star Regex.Dot; Regex.Close; Regex.One (Regex.Chr DQUOTE); Regex.Eol].

(** Capture group 1 of the first match of the pattern, if there is a
    match. *)
Definition match_enclosing_dquotes (str : jsstring) : option jsstring :=
  match Regex.search enclosing_dquotes [] str with
  | Some (_, group1, _) => Some group1
  | None => None
  end.

(** How [_send] settles once the transport has settled. *)
Definition send_outcome (answer : JsError + AxiosResponse) : JsError + JsValue :=
  match answer with
  | inr response => inr (data response)
  | inl (AxiosError _ (Some response)) =>
      match data response with
      | JsString body =>
          inl (SecretStoreSessionError
                 (statusText response ++ lit " ("
                  ++ JsStr.ofNumber (status response) ++ lit "): "
                  ++ removeEnclosingDQuotes body)
                 (config response))
      | _ => inl TypeError
      end
  | inl (AxiosError _ None) => inl TypeError
  | inl (Thrown PrimUndefined) => inl TypeError
  | inl (Thrown PrimNull) => inl TypeError
  | inl error => inl error
  end.

(** The two shapes a call of the session client takes: it fails before
    the transport is reached, or it is one [_send] followed by a step
    [post] that does not touch the transport. *)
Definition fails_locally (m : Session.HttpCall JsValue) : Prop :=
  exists e, forall log, m log = (log, inl e).

Definition sends_once (axios : AxiosRequestConfig -> JsError + AxiosResponse)
           (this : SecretStoreSessionClient)
           (m : Session.HttpCall JsValue) : Prop :=
  exists method u body (post : JsValue -> JsError + JsValue),
    forall log,
      m log
      = (log ++ [Session.request this method u body],
         match send_outcome (axios (Session.request this method u body)) with
         | inl e => inl e
         | inr v => post v
         end).

(** The URL [storeDocumentKey] posts to, from the two portions as they go
    into the path. *)
Definition store_url (this : SecretStoreSessionClient)
           (serverKeyID signedServerKeyID cp ep : jsstring) : jsstring :=
  url this ++ lit "/shadow/" ++ remove0x (Some serverKeyID)
  ++ lit "/" ++ remove0x (Some signedServerKeyID)
  ++ lit "/" ++ cp ++ lit "/" ++ ep.

(** How the RPC [_send] settles once the provider has settled. *)
Definition rpc_outcome (answer : JsError + RpcResult) : JsError + RpcResult :=
  match answer with
  | inl e => inl e
  | inr res =>
      match read_error res with
      | inl raised => inl raised
      | inr error =>
          if truthy_value error then inl (new_Error error) else inr res
      end
  end.

(** The request both forms of [shadowDecrypt] are to send. *)
Definition shadowDecrypt_request (account pwd encryptedDocument : jsstring)
           (p : DocumentKeyPortions) : RpcRequest :=
  {| rpc_method := lit "secretstore_shadowDecrypt";
     rpc_params := [PString account; PString pwd;
                    PString (ensure0x (decrypted_secret p));
                    PString (ensure0x (portions_common_point p));
                    PStrings (decrypt_shadows p);
                    PString (ensure0x encryptedDocument)] |}.

(* ================================================================= *)
(** ** Transports used in the scenarios *)

(** A node that answers every request with the same status line and
    body, as axios settles it: fulfilled for a 2xx status, rejected with
    an error carrying the response otherwise. *)
Definition answering (status : N) (statusText body : jsstring)
  : AxiosRequestConfig -> JsError + AxiosResponse :=
  fun cfg =>
    let response := {| data := JsString body; status := status;
                       statusText := statusText; config := cfg |} in
    if (200 <=? status)%N && (status <? 300)%N then inr response
    else inl (AxiosError (lit "Request failed with status code "
                          ++ JsStr.ofNumber status)
                         (Some response)).

(** A node that answers 500 with a JSON object, decoded by axios. *)
Definition answering_object (fields : list (jsstring * JsValue))
  : AxiosRequestConfig -> JsError + AxiosResponse :=
  fun cfg =>
    inl (AxiosError (lit "Request failed with status code 500")
                    (Some {| data := JsObject fields; status := 500;
                             statusText := lit "Internal Server Error";
                             config := cfg |})).

(** A host that refuses the connection: axios rejects with an error of
    its own that has no response. *)
Definition unreachable : AxiosRequestConfig -> JsError + AxiosResponse :=
  fun _ => inl (AxiosError (lit "connect ECONNREFUSED 127.0.0.1:8090") None).

Definition local_node : SecretStoreSessionClient :=
  {| url := lit "http://127.0.0.1:8090"; requestConfig := empty_config |}.

(** A provider that resolves every call with the same result. *)
Definition resolving (value : JsValue) : RpcRequest -> JsError + RpcResult :=
  fun _ => inr value.

(** A provider whose result is an object with an [error] field. *)
Definition failing_with (error : JsValue) : RpcRequest -> JsError + RpcResult :=
  fun _ => inr (JsObject [(lit "error", error)]).

(* ================================================================= *)
(** ** The calls of the two clients, for the properties over all of them *)

(** The operations of the session client that hand the body of the
    response to [removeEnclosingDQuotes] before they return it;
    [storeDocumentKey] and [shadowRetrieveDocumentKey] return what
    [_send] gives. *)
Definition unquotes (call : Session.Call) : bool :=
  match call with
  | Session.StoreDocumentKey _ _ _ _ => false
  | Session.ShadowRetrieveDocumentKey _ _ => false
  | _ => true
  end.

(** A call with [ensure0x] applied to the identifiers and signatures
    that the client strips with [remove0x]. *)
Definition with_prefixed_ids (call : Session.Call) : Session.Call :=
  match call with
  | Session.GenerateServerKey id sig threshold =>
      Session.GenerateServerKey (ensure0x id) (ensure0x sig) threshold
  | Session.RetrieveServerKeyPublic id sig =>
      Session.RetrieveServerKeyPublic (ensure0x id) (ensure0x sig)
  | Session.StoreDocumentKey id sig commonPointOrKey encryptedPoint =>
      Session.StoreDocumentKey (ensure0x id) (ensure0x sig)
                               commonPointOrKey encryptedPoint
  | Session.GenerateServerAndDocumentKey id sig threshold =>
      Session.GenerateServerAndDocumentKey (ensure0x id) (ensure0x sig) threshold
  | Session.ShadowRetrieveDocumentKey id sig =>
      Session.ShadowRetrieveDocumentKey (ensure0x id) (ensure0x sig)
  | Session.RetrieveDocumentKey id sig =>
      Session.RetrieveDocumentKey (ensure0x id) (ensure0x sig)
  | Session.SignSchnorr id sig messageHash =>
      Session.SignSchnorr (ensure0x id) (ensure0x sig) messageHash
  | Session.SignEcdsa id sig messageHash =>
      Session.SignEcdsa (ensure0x id) (ensure0x sig) messageHash
  | Session.NodesSetChange nodeIDsNewSet signatureOldSet signatureNewSet =>
      Session.NodesSetChange nodeIDsNewSet (ensure0x signatureOldSet)
                             (ensure0x signatureNewSet)
  end.

(** The six operations of the RPC client as one type of calls. *)
Inductive RpcOperation : Type :=
| SignRawHash (account pwd rawhash : jsstring)
| GenerateDocumentKey (account pwd serverKey : jsstring)
| Encrypt (account pwd hexDocument encryptedDocumentKey : jsstring)
| Decrypt (account pwd encryptedDocument encryptedDocumentKey : jsstring)
| ShadowDecrypt (account pwd encryptedDocument : jsstring)
                (decryptedSecretOrDocumentKeyPortions : SecretOrPortions)
                (commonPoint : option jsstring)
                (decryptShadows : option (list jsstring))
| ServersSetHash (nodeIDs : list jsstring).

Definition rpc_perform (provider_send : RpcRequest -> JsError + RpcResult)
           (op : RpcOperation) : Rpc.RpcCall RpcResult :=
  match op with
  | SignRawHash account pwd rawhash =>
      Rpc.signRawHash provider_send account pwd rawhash
  | GenerateDocumentKey account pwd serverKey =>
      Rpc.generateDocumentKey provider_send account pwd serverKey
  | Encrypt account pwd hexDocument encryptedDocumentKey =>
      Rpc.encrypt provider_send account pwd hexDocument encryptedDocumentKey
  | Decrypt account pwd encryptedDocument encryptedDocumentKey =>
      Rpc.decrypt provider_send account pwd encryptedDocument encryptedDocumentKey
  | ShadowDecrypt account pwd encryptedDocument secretOrPortions
                  commonPoint decryptShadows =>
      Rpc.shadowDecrypt provider_send account pwd encryptedDocument
                        secretOrPortions commonPoint decryptShadows
  | ServersSetHash nodeIDs =>
      Rpc.serversSetHash provider_send nodeIDs
  end.

(** An RPC call with [ensure0x] applied to the hex arguments that the
    client prefixes itself.  The portions of [shadowDecrypt] are left
    alone: the positional form tests them for emptiness first. *)
Definition with_prefixed_hex (op : RpcOperation) : RpcOperation :=
  match op with
  | SignRawHash account pwd rawhash =>
      SignRawHash account pwd (ensure0x rawhash)
  | GenerateDocumentKey account pwd serverKey =>
      GenerateDocumentKey account pwd (ensure0x serverKey)
  | Encrypt account pwd hexDocument encryptedDocumentKey =>
      Encrypt account pwd (ensure0x hexDocument) (ensure0x encryptedDocumentKey)
  | Decrypt account pwd encryptedDocument encryptedDocumentKey =>
      Decrypt account pwd (ensure0x encryptedDocument)
              (ensure0x encryptedDocumentKey)
  | ShadowDecrypt account pwd encryptedDocument secretOrPortions
                  commonPoint decryptShadows =>
      ShadowDecrypt account pwd (ensure0x encryptedDocument) secretOrPortions
                    commonPoint decryptShadows
  | ServersSetHash nodeIDs => ServersSetHash nodeIDs
  end.

(** The arrays a call is given: the node IDs of [serversSetHash], the
    shadows of [shadowDecrypt] in either form. *)
Definition given_arrays (op : RpcOperation) : list (list jsstring) :=
  match op with
  | ShadowDecrypt _ _ _ (WholePortions p) _ _ => [decrypt_shadows p]
  | ShadowDecrypt _ _ _ _ _ (Some shadows) => [shadows]
  | ServersSetHash nodeIDs => [nodeIDs]
  | _ => []
  end.

(* ================================================================= *)
(** ** lib/utils.js and lib/secretstore/session.js: the earlier generation *)

Module Legacy.

(** What the callers hand to the utilities: a string, or nothing.  (A
    value of another type would go through its own [toString].) *)
Inductive Value : Type :=
| Undefined
| Null
| Str (s : jsstring).

(** [remove0x]: [if (val === undefined || val === null) return "";
    var str = val.toString(); if (str.startsWith("0x")) return
    str.slice(2); return str]. *)
Definition remove0x (val : Value) : jsstring :=
  match val with
  | Undefined => []
  | Null => []
  | Str str =>
      if JsStr.startsWith str (lit "0x") then JsStr.slice str 2 None else str
  end.

(** [add0x]: [if (!str.startsWith("0x")) return "0x" + str; return
    str]. *)
Definition add0x (str : jsstring) : jsstring :=
  if negb (JsStr.startsWith str (lit "0x")) then lit "0x" ++ str else str.

(** [removeEnclosingDQuotes]: the same [replace] with the same
    pattern. *)
Definition removeEnclosingDQuotes (str : jsstring) : jsstring :=
  Regex.replace_by_group1 str enclosing_dquotes.

(** The [Session] class keeps the endpoint in [uri]. *)
Record Session : Type := { uri : jsstring }.

(** Its constructor. *)
Definition new_Session (ss_endpoint_uri : option jsstring) : JsError + Session :=
  match truthy ss_endpoint_uri with
  | None =>
      inl (Error (lit "Secret Store enpoint URI was not given, or invalid: "
                  ++ JsStr.ofOptional ss_endpoint_uri))
  | Some ss_endpoint_uri =>
      if JsStr.endsWith ss_endpoint_uri (lit "/")
      then inr {| uri := JsStr.slice ss_endpoint_uri 0 (Some (-1)%Z) |}
      else inr {| uri := ss_endpoint_uri |}
  end.

End Legacy.

(* ================================================================= *)
(** * Properties *)

(** ** String primitives *)

Lemma slice_from (s : jsstring) (n : nat) :
  JsStr.slice s (Z.of_nat n) None = skipn n s.
Proof.
  unfold JsStr.slice, JsStr.relative_index.
  destruct (Z.ltb_spec (Z.of_nat n) 0) as [H | _]; [lia |].
  destruct (Nat.le_gt_cases n (List.length s)) as [Hle | Hgt].
  - rewrite Z.min_l by lia. rewrite Nat2Z.id.
    apply firstn_all2. rewrite length_skipn. lia.
  - rewrite Z.min_r by lia. rewrite Nat2Z.id.
    rewrite (skipn_all2 s) by lia. rewrite (skipn_all2 s) by lia.
    apply firstn_nil.
Qed.

Lemma slice_drop_last (s : jsstring) :
  JsStr.slice s 0 (Some (-1)%Z) = removelast s.
Proof.
  unfold JsStr.slice, JsStr.relative_index. cbn [Z.ltb Z.compare].
  rewrite Z.min_l by lia. cbn [Z.to_nat skipn].
  rewrite removelast_firstn_len. f_equal.
  destruct s as [| c s]; [reflexivity |].
  cbn [List.length]. rewrite Z.max_l by lia. lia.
Qed.

Lemma startsWith_app (p s : jsstring) : JsStr.startsWith (p ++ s) p = true.
Proof.
  induction p as [| c p IH]; cbn; [reflexivity |].
  now rewrite N.eqb_refl.
Qed.

Lemma startsWith_inv (s p : jsstring) :
  JsStr.startsWith s p = true -> exists r, s = p ++ r.
Proof.
  revert s. induction p as [| c p IH]; intros s H.
  - now exists s.
  - destruct s as [| d s]; cbn in H; [discriminate |].
    apply andb_prop in H as [Hd Hs]. apply N.eqb_eq in Hd. subst d.
    destruct (IH _ Hs) as [r ->]. now exists r.
Qed.

Lemma startsWith_same_length (s p : jsstring) :
  List.length s = List.length p -> JsStr.startsWith s p = true -> s = p.
Proof.
  intros Hlen H. destruct (startsWith_inv _ _ H) as [r ->].
  rewrite length_app in Hlen.
  destruct r; [now rewrite app_nil_r | cbn in Hlen; lia].
Qed.

Lemma endsWith_unit (s : jsstring) (c : codeunit) :
  JsStr.endsWith s [c] = true <-> exists p, s = p ++ [c].
Proof.
  unfold JsStr.endsWith. split.
  - intros H. apply andb_prop in H as [Hlen Hsuf].
    apply Nat.leb_le in Hlen. cbn [List.length] in *.
    exists (firstn (List.length s - 1) s).
    rewrite <- (firstn_skipn (List.length s - 1) s) at 1. f_equal.
    apply startsWith_same_length; [| exact Hsuf].
    rewrite length_skipn. cbn. lia.
  - intros [p ->]. rewrite length_app. cbn [List.length].
    replace (List.length p + 1 - 1)%nat with (List.length p + 0)%nat by lia.
    rewrite skipn_app, Nat.add_0_r, skipn_all.
    replace (List.length p - List.length p)%nat with 0%nat by lia.
    cbn. rewrite N.eqb_refl.
    destruct (List.length p + 1)%nat eqn:E; [lia | reflexivity].
Qed.

(* ================================================================= *)
(** ** lib/utils.ts *)

Lemma truthy_cons (c : codeunit) (s : jsstring) :
  truthy (Some (c :: s)) = Some (c :: s).
Proof. reflexivity. Qed.

Lemma truthy_nonempty (s : jsstring) : s <> [] -> truthy (Some s) = Some s.
Proof. destruct s; [congruence | reflexivity]. Qed.

Lemma remove0x_falsy (val : option jsstring) : falsy val -> remove0x val = [].
Proof. unfold falsy, remove0x. now intros ->. Qed.

Lemma remove0x_prefixed (x : jsstring) : remove0x (Some (lit "0x" ++ x)) = x.
Proof.
  change (lit "0x" ++ x) with (48%N :: 120%N :: x).
  unfold remove0x. rewrite truthy_cons.
  change (JsStr.startsWith (48%N :: 120%N :: x) (lit "0x")) with true.
  cbv iota. now rewrite (slice_from _ 2).
Qed.

Lemma remove0x_plain (x : jsstring) :
  JsStr.startsWith x (lit "0x") = false -> remove0x (Some x) = x.
Proof.
  intros H. unfold remove0x. destruct x as [| c x]; [reflexivity |].
  rewrite truthy_cons. now rewrite H.
Qed.

(** C6: for every string [x], [remove0x(ensure0x(x))] equals
    [remove0x(x)]: adding the prefix before stripping it never changes
    the stripped result. *)
Theorem remove0x_ensure0x (x : jsstring) :
  remove0x (Some (ensure0x x)) = remove0x (Some x).
Proof.
  unfold ensure0x. destruct (JsStr.startsWith x (lit "0x")) eqn:E.
  - reflexivity.
  - now rewrite remove0x_prefixed, remove0x_plain.
Qed.

Lemma run_star (a : Regex.Atom) (p : list Regex.Item) (st : Regex.State)
      (input : jsstring) :
  Regex.run (Regex.Star a :: p) st input
  = match input with
    | c :: rest =>
        if Regex.accepts a c then
          match Regex.run (Regex.Star a :: p) (Regex.step st c) rest with
          | Some r => Some r
          | None => Regex.run p st input
          end
        else Regex.run p st input
    | [] => Regex.run p st input
    end.
Proof. destruct input; reflexivity. Qed.

Lemma closing_quote_run (st : Regex.State) (input : jsstring) :
  Regex.run [Regex.Close; Regex.One (Regex.Chr DQUOTE); Regex.Eol] st input
  = match input with
    | [c] => if N.eqb c DQUOTE then Some (Regex.captured st, []) else None
    | _ => None
    end.
Proof.
  destruct input as [| c [| d rest]]; cbn; try reflexivity;
    now destruct (N.eqb c DQUOTE).
Qed.

Lemma body_run_complete (body : jsstring) :
  no_line_terminator body ->
  forall st, Regex.capturing st = true ->
  Regex.run body_and_closing_quote st (body ++ [DQUOTE])
  = Some (Regex.captured st ++ body, []).
Proof.
  unfold body_and_closing_quote.
  induction 1 as [| c body Hc _ IH]; intros st Hst.
  - rewrite run_star. cbn [app Regex.accepts]. change (JsStr.isLineTerminator DQUOTE) with false.
    cbn [negb]. rewrite run_star, !closing_quote_run. cbn.
    now rewrite app_nil_r.
  - rewrite run_star. cbn [app Regex.accepts]. rewrite Hc. cbn [negb].
    rewrite IH by exact Hst. cbn [Regex.step Regex.captured]. rewrite Hst.
    now rewrite <- app_assoc.
Qed.

Lemma body_run_sound (input : jsstring) :
  forall st group1 after,
  Regex.capturing st = true ->
  Regex.run body_and_closing_quote st input = Some (group1, after) ->
  exists body,
    input = body ++ [DQUOTE] /\ no_line_terminator body
    /\ group1 = Regex.captured st ++ body /\ after = [].
Proof.
  unfold body_and_closing_quote.
  induction input as [| c rest IH]; intros st group1 after Hst H;
    rewrite run_star in H.
  - rewrite closing_quote_run in H. discriminate.
  - assert (Hstop :
        Regex.run [Regex.Close; Regex.One (Regex.Chr DQUOTE); Regex.Eol]
                  st (c :: rest) = Some (group1, after) ->
        exists body,
          c :: rest = body ++ [DQUOTE] /\ no_line_terminator body
          /\ group1 = Regex.captured st ++ body /\ after = []).
    { rewrite closing_quote_run. destruct rest; [| discriminate].
      destruct (N.eqb c DQUOTE) eqn:Hq; [| discriminate].
      apply N.eqb_eq in Hq. subst c. intros [= <- <-].
      exists []. rewrite app_nil_r. repeat split. constructor. }
    cbn [Regex.accepts] in H.
    destruct (JsStr.isLineTerminator c) eqn:Hlt; cbn [negb] in H;
      [now apply Hstop |].
    destruct (Regex.run _ (Regex.step st c) rest) as [r |] eqn:Hrest;
      [| now apply Hstop].
    injection H as ->.
    destruct (IH (Regex.step st c) _ _ Hst Hrest) as (body & -> & Hbody & -> & ->).
    exists (c :: body). cbn [Regex.step Regex.captured]. rewrite Hst.
    rewrite <- app_assoc. repeat split. now constructor.
Qed.

Lemma pattern_run_at_start (str : jsstring) :
  Regex.run enclosing_dquotes (Regex.start 0) str
  = match str with
    | c :: rest =>
        if N.eqb c DQUOTE
        then Regex.run body_and_closing_quote
                       (Regex.open (Regex.step (Regex.start 0) c)) rest
        else None
    | [] => None
    end.
Proof. destruct str; reflexivity. Qed.

Lemma pattern_run_later (index : nat) (str : jsstring) :
  Regex.run enclosing_dquotes (Regex.start (S index)) str = None.
Proof. reflexivity. Qed.

Lemma search_later (input before : jsstring) :
  before <> [] -> Regex.search enclosing_dquotes before input = None.
Proof.
  revert before. induction input as [| c rest IH]; intros before Hne;
    cbn [Regex.search];
    (destruct (List.length before) eqn:Hlen;
     [destruct before; [congruence | discriminate] |]);
    rewrite pattern_run_later; [reflexivity |].
  apply IH. now destruct before.
Qed.

Lemma search_at_start (str : jsstring) :
  Regex.search enclosing_dquotes [] str
  = match Regex.run enclosing_dquotes (Regex.start 0) str with
    | Some (group1, after) => Some ([], group1, after)
    | None => None
    end.
Proof.
  destruct str as [| c rest]; cbn [Regex.search List.length].
  - reflexivity.
  - destruct (Regex.run enclosing_dquotes (Regex.start 0) (c :: rest))
      as [[group1 after] |]; [reflexivity |].
    now apply search_later.
Qed.

Lemma match_enclosing_dquotes_spec (s body : jsstring) :
  match_enclosing_dquotes s = Some body <->
  s = quoted body /\ no_line_terminator body.
Proof.
  unfold match_enclosing_dquotes, quoted.
  rewrite search_at_start, pattern_run_at_start. split.
  - destruct s as [| c rest]; [discriminate |].
    destruct (N.eqb c DQUOTE) eqn:Hq; [| discriminate].
    apply N.eqb_eq in Hq. subst c.
    destruct (Regex.run body_and_closing_quote _ rest) as [[group1 after] |] eqn:E;
      [| discriminate].
    intros [= ->].
    apply body_run_sound in E as (b & -> & Hb & -> & _); [| reflexivity].
    now split.
  - intros [-> Hbody]. rewrite N.eqb_refl.
    now rewrite (body_run_complete Hbody).
Qed.

Lemma removeEnclosingDQuotes_match (s : jsstring) :
  removeEnclosingDQuotes s
  = match match_enclosing_dquotes s with
    | Some body => body
    | None => s
    end.
Proof.
  unfold removeEnclosingDQuotes, Regex.replace_by_group1, match_enclosing_dquotes.
  rewrite search_at_start, pattern_run_at_start.
  destruct s as [| c rest]; [reflexivity |].
  destruct (N.eqb c DQUOTE); [| reflexivity].
  destruct (Regex.run body_and_closing_quote _ rest) as [[group1 after] |] eqn:E;
    [| reflexivity].
  apply body_run_sound in E as (b & _ & _ & _ & ->); [| reflexivity].
  now rewrite app_nil_r.
Qed.

(** What [removeEnclosingDQuotes] does on every string: it returns the
    inner body exactly when [s] is a body with no line terminator (LF,
    CR, U+2028, U+2029) between one leading and one trailing double
    quote at the two ends of the string, and returns [s] unchanged
    otherwise; quoted abc gives abc, abc gives abc, and a, quote, b
    between quotes gives a, quote, b. *)
Theorem removeEnclosingDQuotes_spec :
  (forall s : jsstring,
      (exists body, s = quoted body /\ no_line_terminator body
                    /\ removeEnclosingDQuotes s = body)
      \/ (~ (exists body, s = quoted body /\ no_line_terminator body)
          /\ removeEnclosingDQuotes s = s))
  /\ removeEnclosingDQuotes (quoted (lit "abc")) = lit "abc"
  /\ removeEnclosingDQuotes (lit "abc") = lit "abc"
  /\ removeEnclosingDQuotes (quoted (lit "a" ++ [DQUOTE] ++ lit "b"))
     = lit "a" ++ [DQUOTE] ++ lit "b".
Proof.
  split; [| repeat split].
  intros s. rewrite removeEnclosingDQuotes_match.
  destruct (match_enclosing_dquotes s) as [body |] eqn:E.
  - left. exists body. apply match_enclosing_dquotes_spec in E as [-> Hbody].
    now repeat split.
  - right. split; [| reflexivity]. intros [body Hbody].
    apply match_enclosing_dquotes_spec in Hbody. congruence.
Qed.

(** C5, at the failing input: a string wrapped in double quotes at both
    ends whose body holds a line feed is returned unchanged, quotes
    included, where the claim and the function's own description have
    the body returned without them. *)
Lemma removeEnclosingDQuotes_keeps_quotes_around_line_feed :
  let body := lit "a" ++ [LF] ++ lit "b" in
  removeEnclosingDQuotes (quoted body) = quoted body
  /\ removeEnclosingDQuotes (quoted body) <> body.
Proof. split; [reflexivity | discriminate]. Qed.

(* ================================================================= *)
(** ** The session client: construction *)

Lemma removelast_snoc (p : jsstring) (c : codeunit) : removelast (p ++ [c]) = p.
Proof. now rewrite removelast_last. Qed.

(** C7: constructing a session client with an undefined or empty base
    URL fails at once with the configuration error (the [Error] the
    constructor throws for a missing endpoint); with a non-empty URL it
    succeeds and stores the URL with exactly one trailing slash
    stripped when there is one, and the URL unchanged otherwise; the
    URL http://host:8090/ is stored as http://host:8090. *)
Theorem session_client_construction
        (ssEndpointUrl : jsstring) (requestConfig : option AxiosRequestConfig) :
  ssEndpointUrl <> [] ->
  Session.new None requestConfig
  = inl (Error (lit "Secret Store endpoint URL was not given"))
  /\ Session.new (Some []) requestConfig
     = inl (Error (lit "Secret Store endpoint URL was not given"))
  /\ (exists client,
         Session.new (Some ssEndpointUrl) requestConfig = inr client
         /\ (forall u, ssEndpointUrl = u ++ lit "/" -> url client = u)
         /\ ((forall u, ssEndpointUrl <> u ++ lit "/") ->
             url client = ssEndpointUrl))
  /\ (exists client,
         Session.new (Some (lit "http://host:8090/")) requestConfig = inr client
         /\ url client = lit "http://host:8090").
Proof.
  intros Hne. repeat split; [| now eexists].
  unfold Session.new. rewrite (truthy_nonempty Hne).
  eexists. split; [reflexivity |]. cbn [url]. split.
  - intros u ->. change (lit "/") with [SLASH].
    rewrite (proj2 (endsWith_unit (u ++ [SLASH]) SLASH)) by now exists u.
    now rewrite slice_drop_last, removelast_snoc.
  - intros Hno. destruct (JsStr.endsWith ssEndpointUrl (lit "/")) eqn:E;
      [| reflexivity].
    apply endsWith_unit in E as [u ->]. now destruct (Hno u).
Qed.

Lemma session_client_construction_witness :
  exists client,
    Session.new (Some (lit "http://host:8090//")) None = inr client
    /\ url client = lit "http://host:8090/".
Proof.
  destruct (@session_client_construction (lit "http://host:8090//") None)
    as (_ & _ & (client & Hnew & Hstrip & _) & _); [discriminate |].
  exists client. split; [exact Hnew |].
  apply (Hstrip (lit "http://host:8090/")). reflexivity.
Defined.

(* ================================================================= *)
(** ** The session client: what [_send] does with a request *)

Section SessionSend.
Variable axios : AxiosRequestConfig -> JsError + AxiosResponse.
Variable this : SecretStoreSessionClient.

Lemma send_run (method : Method) (u : jsstring) (body : option RequestBody)
      (log : list AxiosRequestConfig) :
  Session._send axios this method u body log
  = (log ++ [Session.request this method u body],
     send_outcome (axios (Session.request this method u body))).
Proof.
  unfold Session._send, try_catch, bind, await, ret, throw.
  destruct (axios (Session.request this method u body)) as [error | response];
    [| reflexivity].
  destruct error as [m | m meta | | m [response |] | v | [| | b | n | str]];
    try reflexivity.
  cbn. now destruct (data response).
Qed.

Lemma unquoted_send_once (method : Method) (u : jsstring)
      (body : option RequestBody) :
  sends_once axios this (Session.as_value
                (res <- Session._send axios this method u body ;;
                 Session.unquote res)).
Proof.
  exists method, u, body,
    (fun v => match v with
              | JsString str => inr (JsString (removeEnclosingDQuotes str))
              | _ => inl TypeError
              end).
  intros log.
  unfold Session.as_value, bind. rewrite send_run.
  destruct (send_outcome _) as [e | v]; [reflexivity |].
  now destruct v.
Qed.

Lemma raw_send_once (method : Method) (u : jsstring)
      (body : option RequestBody) :
  sends_once axios this (Session._send axios this method u body).
Proof.
  exists method, u, body, (fun v => inr v).
  intros log. rewrite send_run.
  now destruct (send_outcome _).
Qed.

Lemma issued_unquoted_send (method : Method) (u : jsstring)
      (body : option RequestBody) (log : list AxiosRequestConfig) :
  issued (res <- Session._send axios this method u body ;; Session.unquote res)
         log
  = log ++ [Session.request this method u body].
Proof.
  unfold issued, bind. rewrite send_run.
  destruct (send_outcome _) as [e | v]; [reflexivity |].
  now destruct v.
Qed.

Lemma perform_cases (call : Session.Call) :
  fails_locally (Session.perform axios this call)
  \/ sends_once axios this (Session.perform axios this call).
Proof.
  destruct call as [id sig t | id sig | id sig cpk ep | id sig t | id sig
                    | id sig | id sig h | id sig h | ids old new];
    cbn [Session.perform];
    try (right; apply unquoted_send_once);
    try (right; apply raw_send_once).
  unfold Session.storeDocumentKey.
  destruct cpk as [| c | key].
  - left. now eexists.
  - destruct (truthy (Some c)); [| left; now eexists].
    destruct (truthy ep); [| left; now eexists].
    right. apply raw_send_once.
  - right. apply raw_send_once.
Qed.

Lemma not_own_extension (A : Type) (log : list A) (x : A) : log <> log ++ [x].
Proof.
  intros H. apply (f_equal (@List.length A)) in H.
  rewrite length_app in H. cbn in H. lia.
Qed.

(** What a call that reached the transport with [cfg] settles to. *)
Lemma perform_issued (call : Session.Call) (log : list AxiosRequestConfig)
      (cfg : AxiosRequestConfig) :
  issued (Session.perform axios this call) log = log ++ [cfg] ->
  exists post : JsValue -> JsError + JsValue,
    settled (Session.perform axios this call) log
    = match send_outcome (axios cfg) with
      | inl e => inl e
      | inr v => post v
      end.
Proof.
  unfold issued, settled. intros Hlog.
  destruct (perform_cases call) as [[e He] | (m & u & b & post & Hrun)].
  - rewrite He in Hlog. cbn in Hlog. now apply not_own_extension in Hlog.
  - rewrite Hrun in *. cbn [fst snd] in *.
    apply app_inv_head in Hlog. injection Hlog as <-. now exists post.
Qed.

End SessionSend.

(* ================================================================= *)
(** ** The session client: failures of the transport *)

(** C3, at the failing input: a node answers [generateServerKey] with
    status 500, Internal Server Error, and a JSON object as body, which
    axios hands over decoded.  The call issues its request, the
    transport rejects it with that response, and the caller receives a
    [TypeError], raised where the body is given to
    [removeEnclosingDQuotes], and no [SecretStoreSessionError]. *)
Theorem http_failure_with_json_body_surfaces_as_TypeError :
  let axios := answering_object [(lit "error", JsString (lit "boom"))] in
  let call := Session.GenerateServerKey (lit "0xdead") (lit "0xbeef") 2 in
  let cfg := Session.request local_node POST
               (lit "http://127.0.0.1:8090/shadow/dead/beef/2") None in
  issued (Session.perform axios local_node call) [] = [cfg]
  /\ cfg_url cfg = Some (lit "http://127.0.0.1:8090/shadow/dead/beef/2")
  /\ cfg_method cfg = Some POST
  /\ axios cfg
     = inl (AxiosError
              (lit "Request failed with status code 500")
              (Some {| data := JsObject [(lit "error", JsString (lit "boom"))];
                       status := 500;
                       statusText := lit "Internal Server Error";
                       config := cfg |}))
  /\ settled (Session.perform axios local_node call) [] = inl TypeError
  /\ (forall message meta,
         settled (Session.perform axios local_node call) []
         <> inl (SecretStoreSessionError message meta)).
Proof.
  intros axios call cfg.
  do 5 (split; [reflexivity |]).
  intros message meta. discriminate.
Qed.

(** An error of the transport that axios did not make is rethrown
    untouched. *)
Lemma foreign_error_propagates
      (axios : AxiosRequestConfig -> JsError + AxiosResponse)
      (this : SecretStoreSessionClient) (call : Session.Call)
      (log : list AxiosRequestConfig) (cfg : AxiosRequestConfig)
      (error : JsError) :
  issued (Session.perform axios this call) log = log ++ [cfg] ->
  axios cfg = inl error ->
  isAxiosError error = inr false ->
  settled (Session.perform axios this call) log = inl error.
Proof.
  intros Hlog Haxios Hflag.
  destruct (@perform_issued _ _ _ _ _ Hlog) as [post ->].
  rewrite Haxios.
  destruct error as [m | m meta | | m response | v | [| | b | n | str]];
    try reflexivity; discriminate Hflag.
Qed.

(** An error made by axios that has no response does not reach the
    caller: reading the status text off the missing response raises. *)
Lemma axios_error_without_response_is_replaced
      (axios : AxiosRequestConfig -> JsError + AxiosResponse)
      (this : SecretStoreSessionClient) (call : Session.Call)
      (log : list AxiosRequestConfig) (cfg : AxiosRequestConfig)
      (message : jsstring) :
  issued (Session.perform axios this call) log = log ++ [cfg] ->
  axios cfg = inl (AxiosError message None) ->
  settled (Session.perform axios this call) log = inl TypeError.
Proof.
  intros Hlog Haxios.
  destruct (@perform_issued _ _ _ _ _ Hlog) as [post ->].
  now rewrite Haxios.
Qed.

(** C4, at the failing input: against a host that refuses the
    connection, [generateServerKey] issues its request, the transport
    rejects it with an error that has no response, and the caller
    receives a [TypeError] in place of that error. *)
Theorem connection_refused_surfaces_as_TypeError :
  let call := Session.GenerateServerKey (lit "0xdead") (lit "0xbeef") 2 in
  let cfg := Session.request local_node POST
               (lit "http://127.0.0.1:8090/shadow/dead/beef/2") None in
  issued (Session.perform unreachable local_node call) [] = [cfg]
  /\ unreachable cfg
     = inl (AxiosError (lit "connect ECONNREFUSED 127.0.0.1:8090") None)
  /\ settled (Session.perform unreachable local_node call) [] = inl TypeError
  /\ settled (Session.perform unreachable local_node call) []
     <> inl (AxiosError (lit "connect ECONNREFUSED 127.0.0.1:8090") None).
Proof. repeat split. discriminate. Qed.

(* ================================================================= *)
(** ** The session client: a call end to end *)

(** [generateServerKey("0xdead", "0xbeef", 2)] posts to
    /shadow/dead/beef/2; a body without quotes comes back as it is, a
    body in double quotes comes back without them. *)
Example generateServerKey_plain_body :
  Session.generateServerKey (answering 200 (lit "OK") (lit "0xaabb")) local_node
                            (lit "0xdead") (lit "0xbeef") 2 []
  = ([Session.request local_node POST
        (lit "http://127.0.0.1:8090/shadow/dead/beef/2") None],
     inr (lit "0xaabb")).
Proof. reflexivity. Qed.

Example generateServerKey_quoted_body :
  Session.generateServerKey (answering 200 (lit "OK") (quoted (lit "0xaabb")))
                            local_node (lit "0xdead") (lit "0xbeef") 2 []
  = ([Session.request local_node POST
        (lit "http://127.0.0.1:8090/shadow/dead/beef/2") None],
     inr (lit "0xaabb")).
Proof. reflexivity. Qed.

Example nodesSetChange_posts_the_new_set :
  issued (Session.nodesSetChange (answering 200 (lit "OK") []) local_node
            [lit "0xaa"; lit "0xbb"] (lit "0x01") (lit "0x02")) []
  = [Session.request local_node POST
       (lit "http://127.0.0.1:8090/admin/servers_set_change/01/02")
       (Some (JSON_stringify [lit "0xaa"; lit "0xbb"]))].
Proof. reflexivity. Qed.

(* ================================================================= *)
(** ** The session client: URLs *)

(** C9: [signSchnorr] and [signEcdsa] put [messageHash] in the URL as
    supplied, with no [remove0x], while the two identifiers are
    stripped: each issues one request, whose method is GET, whose data
    is absent and whose URL is
    base/schnorr/remove0x(id)/remove0x(sig)/messageHash, and
    base/ecdsa/remove0x(id)/remove0x(sig)/messageHash. *)
Theorem signing_urls_keep_message_hash
        (axios : AxiosRequestConfig -> JsError + AxiosResponse)
        (this : SecretStoreSessionClient)
        (serverKeyID signedServerKeyID messageHash : jsstring)
        (log : list AxiosRequestConfig) :
  (exists schnorr,
      issued (Session.signSchnorr axios this serverKeyID signedServerKeyID
                                  messageHash) log
      = log ++ [schnorr]
      /\ cfg_url schnorr
         = Some (url this ++ lit "/schnorr/" ++ remove0x (Some serverKeyID)
                 ++ lit "/" ++ remove0x (Some signedServerKeyID)
                 ++ lit "/" ++ messageHash)
      /\ cfg_method schnorr = Some GET
      /\ cfg_data schnorr = None)
  /\ (exists ecdsa,
         issued (Session.signEcdsa axios this serverKeyID signedServerKeyID
                                   messageHash) log
         = log ++ [ecdsa]
         /\ cfg_url ecdsa
            = Some (url this ++ lit "/ecdsa/" ++ remove0x (Some serverKeyID)
                    ++ lit "/" ++ remove0x (Some signedServerKeyID)
                    ++ lit "/" ++ messageHash)
         /\ cfg_method ecdsa = Some GET
         /\ cfg_data ecdsa = None).
Proof.
  unfold Session.signSchnorr, Session.signEcdsa.
  rewrite !issued_unquoted_send.
  split; eexists; (split; [reflexivity |]); cbn [Session.request cfg_url
    cfg_method cfg_data]; now repeat split.
Qed.

Example signSchnorr_keeps_0x_of_message_hash :
  map cfg_url
      (issued (Session.signSchnorr (answering 200 (lit "OK") (lit "0xaabb"))
                 local_node (lit "0xdead") (lit "0xbeef") (lit "0xcafe")) [])
  = [Some (lit "http://127.0.0.1:8090/schnorr/dead/beef/0xcafe")].
Proof. reflexivity. Qed.

(** C10: the object form of [storeDocumentKey] is not validated field by
    field.  For every key object whose [common_point] or
    [encrypted_point] is missing or empty, no local error is raised:
    the call is the POST that [_send] makes and settles as that POST
    does, exactly one request is issued, and [remove0x] turns the
    missing field into an empty path segment of the URL. *)
Theorem storeDocumentKey_object_form_is_not_validated
        (axios : AxiosRequestConfig -> JsError + AxiosResponse)
        (this : SecretStoreSessionClient)
        (serverKeyID signedServerKeyID : jsstring)
        (key : ExternallyEncryptedDocumentKey)
        (encryptedPoint : option jsstring)
        (log : list AxiosRequestConfig) :
  falsy (common_point key) \/ falsy (encrypted_point key) ->
  let cp := remove0x (common_point key) in
  let ep := remove0x (encrypted_point key) in
  let sent := Session.request this POST
                (store_url this serverKeyID signedServerKeyID cp ep) None in
  Session.storeDocumentKey axios this serverKeyID signedServerKeyID
                           (WholeKey key) encryptedPoint log
  = Session._send axios this POST
                  (store_url this serverKeyID signedServerKeyID cp ep) None log
  /\ issued (Session.storeDocumentKey axios this serverKeyID signedServerKeyID
                                      (WholeKey key) encryptedPoint) log
     = log ++ [sent]
  /\ cfg_method sent = Some POST
  /\ (falsy (common_point key) ->
      cfg_url sent
      = Some (url this ++ lit "/shadow/" ++ remove0x (Some serverKeyID)
              ++ lit "/" ++ remove0x (Some signedServerKeyID)
              ++ lit "//" ++ ep))
  /\ (falsy (encrypted_point key) ->
      cfg_url sent
      = Some (url this ++ lit "/shadow/" ++ remove0x (Some serverKeyID)
              ++ lit "/" ++ remove0x (Some signedServerKeyID)
              ++ lit "/" ++ cp ++ lit "/")).
Proof.
  intros _ cp ep sent.
  split; [reflexivity |]. split; [| split; [reflexivity | split]].
  - unfold issued, Session.storeDocumentKey. now rewrite send_run.
  - intros H. subst sent cp. rewrite (remove0x_falsy H). reflexivity.
  - intros H. subst sent ep. rewrite (remove0x_falsy H).
    cbn [cfg_url Session.request]. unfold store_url.
    now rewrite app_nil_r.
Qed.

Lemma storeDocumentKey_object_form_is_not_validated_witness :
  issued (Session.storeDocumentKey
            (answering 200 (lit "OK") []) local_node
            (lit "0xdead") (lit "0xbeef")
            (WholeKey {| common_point := None; encrypted_key := None;
                         encrypted_point := Some (lit "0xee") |})
            None) []
  = [Session.request local_node POST
       (lit "http://127.0.0.1:8090/shadow/dead/beef//ee") None].
Proof.
  exact (proj1 (proj2 (@storeDocumentKey_object_form_is_not_validated
                         (answering 200 (lit "OK") []) local_node
                         (lit "0xdead") (lit "0xbeef")
                         {| common_point := None; encrypted_key := None;
                            encrypted_point := Some (lit "0xee") |}
                         None [] (or_introl eq_refl)))).
Defined.

(** C1 (as the code has it): for every [serverKeyID],
    [signedServerKeyID] and non-empty strings [c] and [e],
    [storeDocumentKey] called with the object holding [c] and [e] as
    common and encrypted point (any [encrypted_key]) and called with
    [c], [e] as positional arguments run the same: one request, the
    same in both, a POST of
    base/shadow/remove0x(id)/remove0x(sig)/remove0x(c)/remove0x(e). *)
Theorem storeDocumentKey_forms_agree
        (axios : AxiosRequestConfig -> JsError + AxiosResponse)
        (this : SecretStoreSessionClient)
        (serverKeyID signedServerKeyID c e : jsstring)
        (k : option jsstring) (log : list AxiosRequestConfig) :
  c <> [] -> e <> [] ->
  let key := {| common_point := Some c; encrypted_key := k;
                encrypted_point := Some e |} in
  let sent := Session.request this POST
                (store_url this serverKeyID signedServerKeyID
                           (remove0x (Some c)) (remove0x (Some e))) None in
  Session.storeDocumentKey axios this serverKeyID signedServerKeyID
                           (WholeKey key) None log
  = Session.storeDocumentKey axios this serverKeyID signedServerKeyID
                             (CommonPoint c) (Some e) log
  /\ issued (Session.storeDocumentKey axios this serverKeyID signedServerKeyID
                                      (WholeKey key) None) log
     = log ++ [sent]
  /\ issued (Session.storeDocumentKey axios this serverKeyID signedServerKeyID
                                      (CommonPoint c) (Some e)) log
     = log ++ [sent]
  /\ cfg_method sent = Some POST
  /\ cfg_url sent
     = Some (url this ++ lit "/shadow/" ++ remove0x (Some serverKeyID)
             ++ lit "/" ++ remove0x (Some signedServerKeyID)
             ++ lit "/" ++ remove0x (Some c) ++ lit "/" ++ remove0x (Some e)).
Proof.
  intros Hc He key sent.
  unfold issued, Session.storeDocumentKey.
  rewrite (truthy_nonempty Hc), (truthy_nonempty He). cbn [common_point encrypted_point key].
  rewrite send_run. now repeat split.
Qed.

Lemma storeDocumentKey_forms_agree_witness :
  let axios := answering 200 (lit "OK") [] in
  issued (Session.storeDocumentKey axios local_node (lit "0xdead") (lit "0xbeef")
            (WholeKey {| common_point := Some (lit "c");
                         encrypted_key := Some (lit "k");
                         encrypted_point := Some (lit "e") |}) None) []
  = [Session.request local_node POST
       (lit "http://127.0.0.1:8090/shadow/dead/beef/c/e") None]
  /\ issued (Session.storeDocumentKey axios local_node (lit "0xdead") (lit "0xbeef")
               (CommonPoint (lit "c")) (Some (lit "e"))) []
     = [Session.request local_node POST
          (lit "http://127.0.0.1:8090/shadow/dead/beef/c/e") None].
Proof.
  intros axios.
  destruct (@storeDocumentKey_forms_agree
              axios local_node (lit "0xdead") (lit "0xbeef") (lit "c") (lit "e")
              (Some (lit "k")) [])
    as (_ & Hobject & Hpositional & _); [discriminate | discriminate |].
  split; [exact Hobject | exact Hpositional].
Defined.

(** C1, as stated, fails at an empty common point: the positional form
    is refused before any request, the object form posts. *)
Lemma storeDocumentKey_forms_differ_on_empty_common_point :
  let axios := answering 200 (lit "OK") [] in
  let key := {| common_point := Some []; encrypted_key := Some (lit "k");
                encrypted_point := Some (lit "e") |} in
  issued (Session.storeDocumentKey axios local_node (lit "0xdead") (lit "0xbeef")
            (CommonPoint []) (Some (lit "e"))) []
  = []
  /\ issued (Session.storeDocumentKey axios local_node (lit "0xdead") (lit "0xbeef")
               (WholeKey key) None) []
     = [Session.request local_node POST
          (lit "http://127.0.0.1:8090/shadow/dead/beef//e") None]
  /\ Session.storeDocumentKey axios local_node (lit "0xdead") (lit "0xbeef")
                              (WholeKey key) None []
     <> Session.storeDocumentKey axios local_node (lit "0xdead") (lit "0xbeef")
                                 (CommonPoint []) (Some (lit "e")) [].
Proof. repeat split. discriminate. Qed.

(* ================================================================= *)
(** ** The RPC client *)

Lemma rpc_send_run (provider_send : RpcRequest -> JsError + RpcResult)
      (method : jsstring) (params : list RpcParam) (log : list RpcRequest) :
  Rpc._send provider_send method params log
  = (log ++ [{| rpc_method := method; rpc_params := params |}],
     rpc_outcome
       (provider_send {| rpc_method := method; rpc_params := params |})).
Proof.
  unfold Rpc._send, bind, await, rpc_outcome.
  destruct (provider_send _) as [e | res]; [reflexivity |].
  destruct (read_error res) as [raised | error]; [reflexivity |].
  now destruct (truthy_value error).
Qed.

(** C8 (as the code has it): for every account, password, encrypted
    document and portions object [p] whose decrypted secret and common
    point are non-empty strings and whose shadows are a non-empty array,
    [shadowDecrypt] called with [p] and called with the unpacked fields
    of [p] run the same: one call of secretstore_shadowDecrypt with the
    parameters account, pwd, ensure0x(decrypted_secret),
    ensure0x(common_point), decrypt_shadows,
    ensure0x(encryptedDocument). *)
Theorem shadowDecrypt_forms_agree
        (provider_send : RpcRequest -> JsError + RpcResult)
        (account pwd encryptedDocument : jsstring) (p : DocumentKeyPortions)
        (log : list RpcRequest) :
  decrypted_secret p <> [] ->
  portions_common_point p <> [] ->
  decrypt_shadows p <> [] ->
  let sent := shadowDecrypt_request account pwd encryptedDocument p in
  Rpc.shadowDecrypt provider_send account pwd encryptedDocument
                    (WholePortions p) None None log
  = Rpc.shadowDecrypt provider_send account pwd encryptedDocument
                      (DecryptedSecret (decrypted_secret p))
                      (Some (portions_common_point p))
                      (Some (decrypt_shadows p)) log
  /\ issued (Rpc.shadowDecrypt provider_send account pwd encryptedDocument
                               (WholePortions p) None None) log
     = log ++ [sent]
  /\ issued (Rpc.shadowDecrypt provider_send account pwd encryptedDocument
                               (DecryptedSecret (decrypted_secret p))
                               (Some (portions_common_point p))
                               (Some (decrypt_shadows p))) log
     = log ++ [sent]
  /\ rpc_method sent = lit "secretstore_shadowDecrypt"
  /\ rpc_params sent
     = [PString account; PString pwd;
        PString (ensure0x (decrypted_secret p));
        PString (ensure0x (portions_common_point p));
        PStrings (decrypt_shadows p);
        PString (ensure0x encryptedDocument)].
Proof.
  intros Hsecret Hpoint Hshadows sent.
  unfold issued, Rpc.shadowDecrypt.
  rewrite (truthy_nonempty Hsecret), (truthy_nonempty Hpoint).
  destruct (decrypt_shadows p) as [| shadow shadows] eqn:E; [congruence |].
  rewrite !rpc_send_run. unfold sent, shadowDecrypt_request. rewrite E.
  now repeat split.
Qed.

Lemma shadowDecrypt_forms_agree_witness :
  let p := {| portions_common_point := lit "cp"; decrypted_secret := lit "0xds";
              decrypt_shadows := [lit "s1"; lit "s2"] |} in
  let provider := resolving (JsString (lit "0xdoc")) in
  Rpc.shadowDecrypt provider (lit "alice") (lit "pwd") (lit "enc")
                    (WholePortions p) None None []
  = Rpc.shadowDecrypt provider (lit "alice") (lit "pwd") (lit "enc")
                      (DecryptedSecret (lit "0xds")) (Some (lit "cp"))
                      (Some [lit "s1"; lit "s2"]) [].
Proof.
  intros p provider.
  apply (@shadowDecrypt_forms_agree provider (lit "alice") (lit "pwd")
                                    (lit "enc") p []); discriminate.
Defined.

(** C8, as stated, fails at an empty decrypted secret: with non-empty
    shadows the object form calls the node, the positional form is
    refused before any call. *)
Lemma shadowDecrypt_forms_differ_on_empty_secret :
  let p := {| portions_common_point := lit "cp"; decrypted_secret := [];
              decrypt_shadows := [lit "s1"] |} in
  let provider := resolving (JsString (lit "0xdoc")) in
  issued (Rpc.shadowDecrypt provider (lit "alice") (lit "pwd") (lit "enc")
                            (WholePortions p) None None) []
  = [{| rpc_method := lit "secretstore_shadowDecrypt";
        rpc_params := [PString (lit "alice"); PString (lit "pwd");
                       PString (lit "0x"); PString (lit "0xcp");
                       PStrings [lit "s1"]; PString (lit "0xenc")] |}]
  /\ Rpc.shadowDecrypt provider (lit "alice") (lit "pwd") (lit "enc")
                       (DecryptedSecret (decrypted_secret p))
                       (Some (portions_common_point p))
                       (Some (decrypt_shadows p)) []
     = ([], inl (Error (lit "Document key portions were not supplied"))).
Proof. split; reflexivity. Qed.

(* ================================================================= *)
(** ** Local validation of the key material *)

(** C2 (as the code has it): a call of [storeDocumentKey] or
    [shadowDecrypt] whose key material is absent, or whose positional
    set is incomplete, fails with a local error and issues no request:
    the recorded requests are unchanged.  The messages are: for
    [storeDocumentKey], No document key parameters were given when the
    third argument is undefined or empty, and Common point was given but
    no encrypted point, with the encrypted point in parentheses, when
    only the encrypted point is missing; for [shadowDecrypt], Document
    key portions were not supplied when the fourth argument is undefined
    or empty, and Not enough document key portions were supplied, with
    the three portions in parentheses, when the common point or the
    shadows are missing or the shadows are empty. *)
Theorem incomplete_key_material_fails_locally
        (axios : AxiosRequestConfig -> JsError + AxiosResponse)
        (this : SecretStoreSessionClient)
        (provider_send : RpcRequest -> JsError + RpcResult)
        (serverKeyID signedServerKeyID account pwd encryptedDocument : jsstring) :
  (forall commonPointOrKey encryptedPoint log,
      commonPointOrKey = NoKey \/ commonPointOrKey = CommonPoint [] ->
      Session.storeDocumentKey axios this serverKeyID signedServerKeyID
                               commonPointOrKey encryptedPoint log
      = (log, inl (Error (lit "No document key parameters were given"))))
  /\ (forall commonPoint encryptedPoint log,
         commonPoint <> [] -> falsy encryptedPoint ->
         Session.storeDocumentKey axios this serverKeyID signedServerKeyID
                                  (CommonPoint commonPoint) encryptedPoint log
         = (log,
            inl (Error (lit "Common point was given but no encrypted point ("
                        ++ JsStr.ofOptional encryptedPoint ++ lit ")"))))
  /\ (forall secretOrPortions commonPoint decryptShadows log,
         secretOrPortions = NoPortions \/ secretOrPortions = DecryptedSecret [] ->
         Rpc.shadowDecrypt provider_send account pwd encryptedDocument
                           secretOrPortions commonPoint decryptShadows log
         = (log, inl (Error (lit "Document key portions were not supplied"))))
  /\ (forall decryptedSecret commonPoint decryptShadows log,
         decryptedSecret <> [] ->
         falsy commonPoint \/ decryptShadows = None \/ decryptShadows = Some [] ->
         Rpc.shadowDecrypt provider_send account pwd encryptedDocument
                           (DecryptedSecret decryptedSecret)
                           commonPoint decryptShadows log
         = (log,
            inl (Error (lit "Not enough document key portions were supplied ("
                        ++ decryptedSecret ++ lit ","
                        ++ JsStr.ofOptional commonPoint ++ lit ","
                        ++ JsStr.ofOptionalArray decryptShadows ++ lit ")")))).
Proof.
  repeat split.
  - intros cpk ep log [-> | ->]; reflexivity.
  - intros c ep log Hc Hep. unfold Session.storeDocumentKey.
    rewrite (truthy_nonempty Hc). unfold falsy in Hep. now rewrite Hep.
  - intros sp cp shadows log [-> | ->]; reflexivity.
  - intros s cp shadows log Hs Hmissing. unfold Rpc.shadowDecrypt.
    rewrite (truthy_nonempty Hs).
    destruct Hmissing as [Hcp | [-> | ->]].
    + unfold falsy in Hcp. now rewrite Hcp.
    + now destruct (truthy cp).
    + now destruct (truthy cp).
Qed.

(** The two calls of the specification, and an incomplete
    [shadowDecrypt], against transports that would answer. *)
Lemma incomplete_key_material_fails_locally_witness :
  let axios := answering 200 (lit "OK") [] in
  let provider := resolving (JsString (lit "0xdoc")) in
  Session.storeDocumentKey axios local_node (lit "0xdead") (lit "0xbeef")
                           NoKey (Some (lit "pt")) []
  = ([], inl (Error (lit "No document key parameters were given")))
  /\ Session.storeDocumentKey axios local_node (lit "0xdead") (lit "0xbeef")
                              (CommonPoint []) (Some []) []
     = ([], inl (Error (lit "No document key parameters were given")))
  /\ Session.storeDocumentKey axios local_node (lit "0xdead") (lit "0xbeef")
                              (CommonPoint (lit "cp")) None []
     = ([], inl (Error (lit "Common point was given but no encrypted point (undefined)")))
  /\ Rpc.shadowDecrypt provider (lit "alice") (lit "pwd") (lit "enc")
                       NoPortions (Some (lit "cp")) (Some [lit "s1"]) []
     = ([], inl (Error (lit "Document key portions were not supplied")))
  /\ Rpc.shadowDecrypt provider (lit "alice") (lit "pwd") (lit "enc")
                       (DecryptedSecret (lit "ds")) None (Some [lit "s1"; lit "s2"]) []
     = ([], inl (Error (lit "Not enough document key portions were supplied (ds,undefined,s1,s2)"))).
Proof.
  intros axios provider.
  destruct (@incomplete_key_material_fails_locally
              axios local_node provider (lit "0xdead") (lit "0xbeef")
              (lit "alice") (lit "pwd") (lit "enc"))
    as (Hnone & Hpoint & Hportions & Hfew).
  split; [| split; [| split; [| split]]].
  - apply Hnone. now left.
  - apply Hnone. now right.
  - apply (Hpoint (lit "cp") None []); [discriminate | reflexivity].
  - apply Hportions. now left.
  - apply (Hfew (lit "ds") None (Some [lit "s1"; lit "s2"]) []);
      [discriminate | left; reflexivity].
Defined.

(** C2, as stated, fails on the messages: [storeDocumentKey] with a
    common point and no encrypted point is refused locally with a
    message that is neither of the two the claim names. *)
Lemma storeDocumentKey_missing_encrypted_point_message :
  let axios := answering 200 (lit "OK") [] in
  exists message,
    Session.storeDocumentKey axios local_node (lit "0xdead") (lit "0xbeef")
                             (CommonPoint (lit "cp")) None []
    = ([], inl (Error message))
    /\ message = lit "Common point was given but no encrypted point (undefined)"
    /\ message <> lit "Not enough document key portions were supplied"
    /\ message <> lit "No document key parameters were given".
Proof.
  intros axios. eexists. split; [reflexivity |].
  split; [reflexivity |]. split; discriminate.
Qed.

(* ================================================================= *)
(** * Further properties of the code *)

(** ** lib/utils.ts: the two prefix transforms *)

Lemma startsWith_ensure0x (x : jsstring) :
  JsStr.startsWith (ensure0x x) (lit "0x") = true.
Proof.
  unfold ensure0x. destruct (JsStr.startsWith x (lit "0x")) eqn:E;
    [exact E | apply startsWith_app].
Qed.

Lemma ensure0x_fixed (x : jsstring) :
  JsStr.startsWith x (lit "0x") = true -> ensure0x x = x.
Proof. unfold ensure0x. now intros ->. Qed.

Lemma ensure0x_twice (x : jsstring) : ensure0x (ensure0x x) = ensure0x x.
Proof. apply ensure0x_fixed, startsWith_ensure0x. Qed.

Lemma remove0x_after_ensure0x (x : jsstring) :
  remove0x (Some (ensure0x x)) = remove0x (Some x).
Proof.
  unfold ensure0x. destruct (JsStr.startsWith x (lit "0x")) eqn:E;
    [reflexivity | now rewrite remove0x_prefixed, remove0x_plain].
Qed.

(** X1: [ensure0x] is idempotent, and what it returns always starts
    with 0x and ends with its argument: it changes a string only by
    putting 0x in front. *)
Theorem ensure0x_idempotent_and_prefixed (x : jsstring) :
  ensure0x (ensure0x x) = ensure0x x
  /\ JsStr.startsWith (ensure0x x) (lit "0x") = true
  /\ (ensure0x x = x \/ ensure0x x = lit "0x" ++ x).
Proof.
  split; [apply ensure0x_twice |]. split; [apply startsWith_ensure0x |].
  unfold ensure0x. destruct (JsStr.startsWith x (lit "0x")); [now left | now right].
Qed.

(** X2: [remove0x] takes off one prefix and no more.  Of a string that
    starts with 0x it returns all that follows the first two code
    units, even when that again starts with 0x; any other string is
    returned as it is. *)
Theorem remove0x_strips_one_prefix (x : jsstring) :
  (JsStr.startsWith x (lit "0x") = true /\ x = lit "0x" ++ remove0x (Some x))
  \/ (JsStr.startsWith x (lit "0x") = false /\ remove0x (Some x) = x).
Proof.
  destruct (JsStr.startsWith x (lit "0x")) eqn:E.
  - left. split; [reflexivity |].
    destruct (startsWith_inv _ _ E) as [r ->]. now rewrite remove0x_prefixed.
  - right. split; [reflexivity | now apply remove0x_plain].
Qed.

(** X3: on a string without the prefix, [remove0x] undoes [ensure0x]. *)
Theorem remove0x_undoes_ensure0x (x : jsstring) :
  JsStr.startsWith x (lit "0x") = false ->
  remove0x (Some (ensure0x x)) = x.
Proof.
  intros H. rewrite remove0x_after_ensure0x. now apply remove0x_plain.
Qed.

Lemma remove0x_undoes_ensure0x_witness :
  remove0x (Some (ensure0x (lit "dead"))) = lit "dead".
Proof. apply (@remove0x_undoes_ensure0x (lit "dead")). reflexivity. Defined.

(** X4: on a string with exactly one prefix, [ensure0x] undoes
    [remove0x]; with two prefixes it does not, one prefix is lost. *)
Theorem ensure0x_undoes_remove0x (r : jsstring) :
  JsStr.startsWith r (lit "0x") = false ->
  ensure0x (remove0x (Some (lit "0x" ++ r))) = lit "0x" ++ r
  /\ ensure0x (remove0x (Some (lit "0x" ++ lit "0x" ++ r))) = lit "0x" ++ r.
Proof.
  intros H. rewrite !remove0x_prefixed. split.
  - unfold ensure0x. now rewrite H.
  - apply ensure0x_fixed, startsWith_app.
Qed.

Lemma ensure0x_undoes_remove0x_witness :
  ensure0x (remove0x (Some (lit "0xbeef"))) = lit "0xbeef"
  /\ ensure0x (remove0x (Some (lit "0x0xbeef"))) = lit "0xbeef".
Proof. apply (@ensure0x_undoes_remove0x (lit "beef")). reflexivity. Defined.

(** ** lib/utils.ts: [removeEnclosingDQuotes] *)

Lemma no_line_terminator_quoted (body : jsstring) :
  no_line_terminator body -> no_line_terminator (quoted body).
Proof.
  intros H. unfold quoted, no_line_terminator.
  constructor; [reflexivity |]. apply Forall_app. split; [exact H |].
  now constructor.
Qed.

Lemma removeEnclosingDQuotes_quoted (body : jsstring) :
  no_line_terminator body -> removeEnclosingDQuotes (quoted body) = body.
Proof.
  intros H. rewrite removeEnclosingDQuotes_match.
  now rewrite (proj2 (match_enclosing_dquotes_spec (quoted body) body)).
Qed.

(** X5: [removeEnclosingDQuotes] takes off one pair of quotes and no
    more: a body without line terminators that is wrapped twice comes
    back wrapped once, and a second application is needed to reach the
    body. *)
Theorem removeEnclosingDQuotes_one_layer (body : jsstring) :
  no_line_terminator body ->
  removeEnclosingDQuotes (quoted (quoted body)) = quoted body
  /\ removeEnclosingDQuotes (removeEnclosingDQuotes (quoted (quoted body)))
     = body.
Proof.
  intros H.
  rewrite (removeEnclosingDQuotes_quoted (no_line_terminator_quoted H)).
  split; [reflexivity | now apply removeEnclosingDQuotes_quoted].
Qed.

Lemma removeEnclosingDQuotes_one_layer_witness :
  removeEnclosingDQuotes (quoted (quoted (lit "0xaabb"))) = quoted (lit "0xaabb").
Proof.
  apply (@removeEnclosingDQuotes_one_layer (lit "0xaabb")).
  repeat constructor.
Defined.

(** X6: [removeEnclosingDQuotes] returns its argument or its argument
    without the first and the last code unit: the result is never
    longer, and shorter by exactly two when it differs. *)
Theorem removeEnclosingDQuotes_length (s : jsstring) :
  removeEnclosingDQuotes s = s
  \/ (s = quoted (removeEnclosingDQuotes s)
      /\ List.length s = (List.length (removeEnclosingDQuotes s) + 2)%nat).
Proof.
  rewrite removeEnclosingDQuotes_match.
  destruct (match_enclosing_dquotes s) as [body |] eqn:E; [| now left].
  right. apply match_enclosing_dquotes_spec in E as [-> _].
  split; [reflexivity |]. unfold quoted. cbn [List.length].
  rewrite length_app. cbn. lia.
Qed.

(* ================================================================= *)
(** ** The session client over all its operations *)

Section SessionCalls.
Variable axios : AxiosRequestConfig -> JsError + AxiosResponse.
Variable this : SecretStoreSessionClient.

Lemma unquoted_run (method : Method) (u : jsstring)
      (body : option RequestBody) (log : list AxiosRequestConfig) :
  Session.as_value
    (res <- Session._send axios this method u body ;; Session.unquote res) log
  = (log ++ [Session.request this method u body],
     match send_outcome (axios (Session.request this method u body)) with
     | inl e => inl e
     | inr (JsString str) => inr (JsString (removeEnclosingDQuotes str))
     | inr _ => inl TypeError
     end).
Proof.
  unfold Session.as_value, bind. rewrite send_run.
  destruct (send_outcome _) as [e | v]; [reflexivity |].
  now destruct v.
Qed.

End SessionCalls.

(** Runs a call of the session client down to the request it records
    and the outcome of [_send]. *)
Ltac run_session_call call :=
  destruct call as [id sig t | id sig | id sig [| c | key] ep | id sig t
                    | id sig | id sig | id sig h | id sig h | ids old new];
  unfold issued, settled; cbn [Session.perform];
  unfold Session.generateServerKey, Session.retrieveServerKeyPublic,
    Session.generateServerAndDocumentKey, Session.shadowRetrieveDocumentKey,
    Session.retrieveDocumentKey, Session.signSchnorr, Session.signEcdsa,
    Session.nodesSetChange, Session.storeDocumentKey;
  try match goal with
      | |- context [truthy (Some c)] => destruct (truthy (Some c))
      end;
  try match goal with
      | |- context [truthy ep] => destruct (truthy ep)
      end;
  rewrite ?unquoted_run, ?send_run; cbn [fst snd throw].

Lemma last_request (A : Type) (log : list A) (x y : A) :
  log ++ [x] = log ++ [y] -> x = y.
Proof. intros H. apply app_inv_head in H. now injection H. Qed.

Ltac same_request H :=
  apply last_request in H; subst.

(** X7: a call of the session client reaches the transport at most
    once, whatever the transport answers: there is no retry.  The only
    call that settles without a request is a [storeDocumentKey] refused
    for its arguments. *)
Theorem session_call_sends_at_most_once
        (axios : AxiosRequestConfig -> JsError + AxiosResponse)
        (this : SecretStoreSessionClient) (call : Session.Call)
        (log : list AxiosRequestConfig) :
  (exists cfg, issued (Session.perform axios this call) log = log ++ [cfg])
  \/ (issued (Session.perform axios this call) log = log
      /\ exists id sig commonPointOrKey encryptedPoint message,
          call = Session.StoreDocumentKey id sig commonPointOrKey encryptedPoint
          /\ settled (Session.perform axios this call) log
             = inl (Error message)).
Proof.
  run_session_call call;
    try (left; eexists; reflexivity);
    right; (split; [reflexivity |]); repeat eexists.
Qed.

(** X8: the request of a call takes from the [requestConfig] of the
    client everything but [url], [method] and [data], which the call
    sets itself: the URL is the stored base URL followed by a path, and
    two clients that differ only in the [url], [method] or [data] of
    their [requestConfig] run every call alike. *)
Theorem session_request_overrides_url_method_data
        (axios : AxiosRequestConfig -> JsError + AxiosResponse)
        (this other : SecretStoreSessionClient) (call : Session.Call)
        (log : list AxiosRequestConfig) (cfg : AxiosRequestConfig) :
  issued (Session.perform axios this call) log = log ++ [cfg] ->
  url other = url this ->
  cfg_others (requestConfig other) = cfg_others (requestConfig this) ->
  cfg_others cfg = cfg_others (requestConfig this)
  /\ (exists path, cfg_url cfg = Some (url this ++ lit "/" ++ path))
  /\ (exists method, cfg_method cfg = Some method)
  /\ Session.perform axios other call log = Session.perform axios this call log.
Proof.
  intros Hcfg Hurl Hothers.
  assert (Hsame : forall m u b,
             Session.request other m u b = Session.request this m u b).
  { intros m u b. unfold Session.request. now rewrite Hothers. }
  revert Hcfg.
  run_session_call call; intros Hcfg;
    try (now apply not_own_extension in Hcfg);
    same_request Hcfg;
    (split; [reflexivity |]); (split; [eexists; reflexivity |]);
    (split; [eexists; reflexivity |]);
    unfold Session.as_value, Session.storeDocumentKey, bind;
    try rewrite !truthy_cons;
    rewrite ?Hurl, ?send_run, ?Hsame; reflexivity.
Qed.

Lemma session_request_overrides_url_method_data_witness :
  let axios := answering 200 (lit "OK") (lit "0xaabb") in
  let other := {| url := lit "http://127.0.0.1:8090";
                  requestConfig := {| cfg_url := Some (lit "http://elsewhere");
                                      cfg_method := Some GET;
                                      cfg_data := Some (JSON_stringify []);
                                      cfg_others := [] |} |} in
  let call := Session.GenerateServerKey (lit "0xdead") (lit "0xbeef") 2 in
  Session.perform axios other call [] = Session.perform axios local_node call [].
Proof.
  intros axios other call.
  apply (@session_request_overrides_url_method_data
           axios local_node other call []
           (Session.request local_node POST
              (lit "http://127.0.0.1:8090/shadow/dead/beef/2") None)
           eq_refl eq_refl eq_refl).
Defined.

(** X9: only [nodesSetChange] sends a body, the JSON text of the new
    set, and it is a POST: a GET of the session client never carries
    data. *)
Theorem session_body_only_for_nodesSetChange
        (axios : AxiosRequestConfig -> JsError + AxiosResponse)
        (this : SecretStoreSessionClient) (call : Session.Call)
        (log : list AxiosRequestConfig) (cfg : AxiosRequestConfig) :
  issued (Session.perform axios this call) log = log ++ [cfg] ->
  (cfg_method cfg = Some GET -> cfg_data cfg = None)
  /\ (forall body,
         cfg_data cfg = Some body ->
         cfg_method cfg = Some POST
         /\ exists nodeIDsNewSet signatureOldSet signatureNewSet,
             call = Session.NodesSetChange nodeIDsNewSet signatureOldSet
                                           signatureNewSet
             /\ body = JSON_stringify nodeIDsNewSet).
Proof.
  run_session_call call; intros Hcfg;
    try (now apply not_own_extension in Hcfg);
    same_request Hcfg; cbn [Session.request cfg_method cfg_data];
    (split; [intros; try reflexivity; discriminate |]);
    intros body [= <-].
  split; [reflexivity | now repeat eexists].
Qed.

Lemma session_body_only_for_nodesSetChange_witness :
  cfg_data (Session.request local_node GET
              (lit "http://127.0.0.1:8090/schnorr/dead/beef/0xcafe") None)
  = None.
Proof.
  apply (@session_body_only_for_nodesSetChange
           (answering 200 (lit "OK") (lit "0xaabb")) local_node
           (Session.SignSchnorr (lit "0xdead") (lit "0xbeef") (lit "0xcafe"))
           [] _ eq_refl).
  reflexivity.
Defined.

(** X10: the identifiers and signatures of a session call may be given
    with or without the 0x prefix: putting the prefix on them changes
    neither the request nor the outcome. *)
Theorem session_ids_prefix_insensitive
        (axios : AxiosRequestConfig -> JsError + AxiosResponse)
        (this : SecretStoreSessionClient) (call : Session.Call)
        (log : list AxiosRequestConfig) :
  Session.perform axios this (with_prefixed_ids call) log
  = Session.perform axios this call log.
Proof.
  destruct call; cbn [with_prefixed_ids Session.perform];
    unfold Session.generateServerKey, Session.retrieveServerKeyPublic,
      Session.generateServerAndDocumentKey, Session.shadowRetrieveDocumentKey,
      Session.retrieveDocumentKey, Session.signSchnorr, Session.signEcdsa,
      Session.nodesSetChange, Session.storeDocumentKey;
    now rewrite !remove0x_after_ensure0x.
Qed.

(** X11: when the transport fulfils the request of a call, the seven
    unquoting operations resolve to the body with its enclosing double
    quotes removed and reject with a [TypeError] when the body is not a
    string; [storeDocumentKey] and [shadowRetrieveDocumentKey] resolve
    to the body as it came, quotes included. *)
Theorem session_call_on_fulfilment
        (axios : AxiosRequestConfig -> JsError + AxiosResponse)
        (this : SecretStoreSessionClient) (call : Session.Call)
        (log : list AxiosRequestConfig) (cfg : AxiosRequestConfig)
        (response : AxiosResponse) :
  issued (Session.perform axios this call) log = log ++ [cfg] ->
  axios cfg = inr response ->
  settled (Session.perform axios this call) log
  = if unquotes call then
      match data response with
      | JsString str => inr (JsString (removeEnclosingDQuotes str))
      | _ => inl TypeError
      end
    else inr (data response).
Proof.
  run_session_call call; intros Hcfg Haxios;
    try (now apply not_own_extension in Hcfg);
    same_request Hcfg; rewrite Haxios; cbn [send_outcome unquotes];
    now destruct (data response).
Qed.

Lemma session_call_on_fulfilment_witness :
  let axios := answering 200 (lit "OK") (quoted (lit "0xaabb")) in
  settled (Session.perform axios local_node
             (Session.RetrieveDocumentKey (lit "0xdead") (lit "0xbeef"))) []
  = inr (JsString (lit "0xaabb"))
  /\ settled (Session.perform axios local_node
                (Session.ShadowRetrieveDocumentKey (lit "0xdead") (lit "0xbeef"))) []
     = inr (JsString (quoted (lit "0xaabb"))).
Proof.
  intros axios. split.
  - exact (@session_call_on_fulfilment
             axios local_node
             (Session.RetrieveDocumentKey (lit "0xdead") (lit "0xbeef")) []
             (Session.request local_node GET
                (lit "http://127.0.0.1:8090/dead/beef") None)
             {| data := JsString (quoted (lit "0xaabb")); status := 200;
                statusText := lit "OK";
                config := Session.request local_node GET
                            (lit "http://127.0.0.1:8090/dead/beef") None |}
             eq_refl eq_refl).
  - exact (@session_call_on_fulfilment
             axios local_node
             (Session.ShadowRetrieveDocumentKey (lit "0xdead") (lit "0xbeef")) []
             (Session.request local_node GET
                (lit "http://127.0.0.1:8090/shadow/dead/beef") None)
             {| data := JsString (quoted (lit "0xaabb")); status := 200;
                statusText := lit "OK";
                config := Session.request local_node GET
                            (lit "http://127.0.0.1:8090/shadow/dead/beef") None |}
             eq_refl eq_refl).
Defined.

(** X12: when the transport rejects the request with a response whose
    body is not a string, the call rejects with a [TypeError]: no
    [SecretStoreSessionError] is made and the status of the response is
    lost. *)
Theorem session_error_body_not_a_string
        (axios : AxiosRequestConfig -> JsError + AxiosResponse)
        (this : SecretStoreSessionClient) (call : Session.Call)
        (log : list AxiosRequestConfig) (cfg : AxiosRequestConfig)
        (message : jsstring) (response : AxiosResponse) :
  issued (Session.perform axios this call) log = log ++ [cfg] ->
  axios cfg = inl (AxiosError message (Some response)) ->
  (forall body, data response <> JsString body) ->
  settled (Session.perform axios this call) log = inl TypeError.
Proof.
  intros Hlog Haxios Hdata.
  destruct (@perform_issued _ _ _ _ _ Hlog) as [post ->].
  rewrite Haxios. cbn [send_outcome].
  destruct (data response) as [| | b | n | s | items | fields];
    try reflexivity.
  now destruct (Hdata s).
Qed.

Lemma session_error_body_not_a_string_witness :
  settled (Session.perform
             (answering_object [(lit "error", JsString (lit "boom"))]) local_node
             (Session.GenerateServerKey (lit "0xdead") (lit "0xbeef") 2)) []
  = inl TypeError.
Proof.
  apply (@session_error_body_not_a_string
           (answering_object [(lit "error", JsString (lit "boom"))]) local_node
           (Session.GenerateServerKey (lit "0xdead") (lit "0xbeef") 2) []
           (Session.request local_node POST
              (lit "http://127.0.0.1:8090/shadow/dead/beef/2") None)
           (lit "Request failed with status code 500")
           {| data := JsObject [(lit "error", JsString (lit "boom"))];
              status := 500; statusText := lit "Internal Server Error";
              config := Session.request local_node POST
                          (lit "http://127.0.0.1:8090/shadow/dead/beef/2") None |}
           eq_refl eq_refl).
  intros body. discriminate.
Defined.

(** X13: a trailing slash on the endpoint makes no difference: for a
    non-empty URL that does not end in a slash, the client made from
    the URL and the client made from the URL with one slash appended
    are the same. *)
Theorem session_client_ignores_trailing_slash
        (ssEndpointUrl : jsstring) (requestConfig : option AxiosRequestConfig) :
  ssEndpointUrl <> [] ->
  JsStr.endsWith ssEndpointUrl (lit "/") = false ->
  Session.new (Some (ssEndpointUrl ++ lit "/")) requestConfig
  = Session.new (Some ssEndpointUrl) requestConfig.
Proof.
  intros Hne Hslash. unfold Session.new.
  rewrite (truthy_nonempty Hne), Hslash.
  rewrite truthy_nonempty by (destruct ssEndpointUrl; discriminate).
  change (lit "/") with [SLASH].
  rewrite (proj2 (endsWith_unit (ssEndpointUrl ++ [SLASH]) SLASH))
    by now exists ssEndpointUrl.
  now rewrite slice_drop_last, removelast_snoc.
Qed.

Lemma session_client_ignores_trailing_slash_witness :
  Session.new (Some (lit "http://host:8090" ++ lit "/")) None
  = Session.new (Some (lit "http://host:8090")) None.
Proof.
  apply (@session_client_ignores_trailing_slash (lit "http://host:8090") None);
    [discriminate | reflexivity].
Defined.

(* ================================================================= *)
(** ** The RPC client over all its operations *)

(** Runs a call of the RPC client down to the request it records and
    the outcome of [_send]. *)
Ltac run_rpc_call op :=
  destruct op as [account pwd rawhash | account pwd serverKey
                  | account pwd hexDocument encryptedDocumentKey
                  | account pwd encryptedDocument encryptedDocumentKey
                  | account pwd encryptedDocument [| secret | portions]
                      commonPoint [[| shadow shadows] |]
                  | nodeIDs];
  unfold issued, settled; cbn [rpc_perform];
  unfold Rpc.signRawHash, Rpc.generateDocumentKey, Rpc.encrypt, Rpc.decrypt,
    Rpc.shadowDecrypt, Rpc.serversSetHash;
  try match goal with
      | |- context [truthy (Some secret)] => destruct (truthy (Some secret))
      end;
  try match goal with
      | |- context [truthy commonPoint] => destruct (truthy commonPoint)
      end;
  rewrite ?rpc_send_run; cbn [fst snd throw].

(** X14: how a call of the RPC client settles once it has reached the
    provider.  A rejection of the provider reaches the caller as it
    is.  A result that is [undefined] or [null] rejects with a
    [TypeError], raised by the read of its [error].  A result whose
    [error] is truthy rejects with [new Error(error)].  Any other
    result resolves to the result itself: a string, which has no such
    property, and an object whose [error] is absent or the empty
    string. *)
Theorem rpc_call_settlement
        (provider_send : RpcRequest -> JsError + RpcResult)
        (op : RpcOperation) (log : list RpcRequest) (req : RpcRequest) :
  issued (rpc_perform provider_send op) log = log ++ [req] ->
  (forall e, provider_send req = inl e ->
             settled (rpc_perform provider_send op) log = inl e)
  /\ (forall res,
         provider_send req = inr res ->
         res = JsUndefined \/ res = JsNull ->
         settled (rpc_perform provider_send op) log = inl TypeError)
  /\ (forall fields,
         provider_send req = inr (JsObject fields) ->
         truthy_value (field (lit "error") fields) = true ->
         settled (rpc_perform provider_send op) log
         = inl (new_Error (field (lit "error") fields)))
  /\ (forall fields,
         provider_send req = inr (JsObject fields) ->
         truthy_value (field (lit "error") fields) = false ->
         settled (rpc_perform provider_send op) log = inr (JsObject fields))
  /\ (forall res,
         provider_send req = inr res ->
         (forall fields, res <> JsObject fields) ->
         res <> JsUndefined -> res <> JsNull ->
         settled (rpc_perform provider_send op) log = inr res).
Proof.
  run_rpc_call op; intros Hreq;
    try (now apply not_own_extension in Hreq);
    same_request Hreq; unfold rpc_outcome;
    (split; [| split; [| split; [| split]]]).
  all: try (intros e ->; reflexivity).
  all: try (intros res -> [-> | ->]; reflexivity).
  all: try (intros fields -> Htruthy; cbn [read_error]; now rewrite Htruthy).
  all: intros res -> Hobject Hundefined Hnull;
    destruct res as [| | b | n | str | items | fields];
    try reflexivity; try congruence.
  all: now destruct (Hobject fields).
Qed.

Lemma rpc_call_settlement_witness :
  let op := SignRawHash (lit "alice") (lit "pwd") (lit "dead") in
  settled (rpc_perform (failing_with (JsString (lit "Account is locked"))) op) []
  = inl (Error (lit "Account is locked"))
  /\ settled (rpc_perform (failing_with (JsString [])) op) []
     = inr (JsObject [(lit "error", JsString [])])
  /\ settled (rpc_perform (resolving JsNull) op) [] = inl TypeError
  /\ settled (rpc_perform (resolving (JsString (lit "0xsigned"))) op) []
     = inr (JsString (lit "0xsigned")).
Proof.
  intros op.
  pose (req := {| rpc_method := lit "secretstore_signRawHash";
                  rpc_params := [PString (lit "alice"); PString (lit "pwd");
                                 PString (lit "0xdead")] |}).
  split; [| split; [| split]].
  - apply (proj1 (proj2 (proj2 (@rpc_call_settlement
             (failing_with (JsString (lit "Account is locked"))) op [] req
             eq_refl)))
             [(lit "error", JsString (lit "Account is locked"))]
             eq_refl eq_refl).
  - apply (proj1 (proj2 (proj2 (proj2 (@rpc_call_settlement
             (failing_with (JsString [])) op [] req eq_refl))))
             [(lit "error", JsString [])] eq_refl eq_refl).
  - apply (proj1 (proj2 (@rpc_call_settlement
             (resolving JsNull) op [] req eq_refl))
             JsNull eq_refl (or_intror eq_refl)).
  - apply (proj2 (proj2 (proj2 (proj2 (@rpc_call_settlement
             (resolving (JsString (lit "0xsigned"))) op [] req eq_refl))))
             (JsString (lit "0xsigned")) eq_refl);
      intros; discriminate.
Defined.

(** X15: a call of the RPC client reaches the provider at most once,
    whatever the provider answers, and a call that does not reach it
    is rejected: no call resolves without its one request. *)
Theorem rpc_call_sends_at_most_once
        (provider_send : RpcRequest -> JsError + RpcResult)
        (op : RpcOperation) (log : list RpcRequest) :
  (exists req, issued (rpc_perform provider_send op) log = log ++ [req])
  \/ (issued (rpc_perform provider_send op) log = log
      /\ exists e, settled (rpc_perform provider_send op) log = inl e).
Proof.
  run_rpc_call op;
    try (left; eexists; reflexivity);
    right; (split; [reflexivity |]); eexists; reflexivity.
Qed.

(** X16: every request of the RPC client names a method of the
    secretstore module, and every string parameter after the account
    and the password starts with 0x. *)
Theorem rpc_hex_parameters_are_prefixed
        (provider_send : RpcRequest -> JsError + RpcResult)
        (op : RpcOperation) (log : list RpcRequest) (req : RpcRequest) :
  issued (rpc_perform provider_send op) log = log ++ [req] ->
  (exists name, rpc_method req = lit "secretstore_" ++ name)
  /\ (forall s, In (PString s) (skipn 2 (rpc_params req)) ->
                JsStr.startsWith s (lit "0x") = true).
Proof.
  run_rpc_call op; intros Hreq;
    try (now apply not_own_extension in Hreq);
    same_request Hreq; cbn [rpc_method rpc_params skipn];
    (split; [eexists; reflexivity |]);
    intros s Hin; cbn [In] in Hin;
    repeat match type of Hin with
           | _ \/ _ => destruct Hin as [Hin | Hin]
           | PString _ = PString _ => injection Hin as <-
           | PStrings _ = PString _ => discriminate Hin
           | False => contradiction
           end;
    apply startsWith_ensure0x.
Qed.

Lemma rpc_hex_parameters_are_prefixed_witness :
  JsStr.startsWith (ensure0x (lit "doc")) (lit "0x") = true.
Proof.
  apply (proj2 (@rpc_hex_parameters_are_prefixed
                  (resolving (JsString (lit "0xenc")))
                  (Encrypt (lit "alice") (lit "pwd") (lit "doc") (lit "0xkey")) []
                  {| rpc_method := lit "secretstore_encrypt";
                     rpc_params := [PString (lit "alice"); PString (lit "pwd");
                                    PString (lit "0xkey");
                                    PString (ensure0x (lit "doc"))] |}
                  eq_refl)).
  cbn. right. now left.
Defined.

(** X17: the arrays go out as they came in: an array parameter of a
    request is the array of node IDs or of shadows the call was given,
    with no prefix put on or taken off its elements. *)
Theorem rpc_arrays_are_sent_verbatim
        (provider_send : RpcRequest -> JsError + RpcResult)
        (op : RpcOperation) (log : list RpcRequest) (req : RpcRequest)
        (xs : list jsstring) :
  issued (rpc_perform provider_send op) log = log ++ [req] ->
  In (PStrings xs) (rpc_params req) ->
  In xs (given_arrays op).
Proof.
  run_rpc_call op; intros Hreq;
    try (now apply not_own_extension in Hreq);
    same_request Hreq; cbn [rpc_params In given_arrays];
    intros Hin;
    repeat match type of Hin with
           | _ \/ _ => destruct Hin as [Hin | Hin]
           | PStrings _ = PStrings _ => injection Hin as <-
           | PString _ = PStrings _ => discriminate Hin
           | False => contradiction
           end;
    now left.
Qed.

Lemma rpc_arrays_are_sent_verbatim_witness :
  In [lit "0xaa"; lit "bb"] (given_arrays (ServersSetHash [lit "0xaa"; lit "bb"])).
Proof.
  apply (@rpc_arrays_are_sent_verbatim
           (resolving (JsString (lit "0xhash")))
           (ServersSetHash [lit "0xaa"; lit "bb"]) []
           {| rpc_method := lit "secretstore_serversSetHash";
              rpc_params := [PStrings [lit "0xaa"; lit "bb"]] |}
           [lit "0xaa"; lit "bb"] eq_refl).
  now left.
Defined.

(** X18: the hex arguments of an RPC call may be given with or without
    the 0x prefix: putting the prefix on them changes neither the
    request nor the outcome. *)
Theorem rpc_hex_prefix_insensitive
        (provider_send : RpcRequest -> JsError + RpcResult)
        (op : RpcOperation) (log : list RpcRequest) :
  rpc_perform provider_send (with_prefixed_hex op) log
  = rpc_perform provider_send op log.
Proof.
  destruct op; cbn [with_prefixed_hex rpc_perform];
    unfold Rpc.signRawHash, Rpc.generateDocumentKey, Rpc.encrypt, Rpc.decrypt,
      Rpc.shadowDecrypt, Rpc.serversSetHash;
    now rewrite ?ensure0x_twice.
Qed.

(* ================================================================= *)
(** ** The earlier generation against the typed one *)

(** X19: on every string and on [undefined] the [remove0x] of
    lib/utils.js returns what the typed [remove0x] returns, and its
    [add0x] is [ensure0x]: the empty string, which only the typed
    [remove0x] tests for, comes out empty of both. *)
Theorem legacy_prefix_transforms_agree (s : jsstring) :
  Legacy.remove0x (Legacy.Str s) = remove0x (Some s)
  /\ Legacy.remove0x Legacy.Undefined = remove0x None
  /\ Legacy.add0x s = ensure0x s.
Proof.
  split; [| split].
  - unfold Legacy.remove0x, remove0x. destruct s as [| c s]; reflexivity.
  - reflexivity.
  - unfold Legacy.add0x, ensure0x.
    now destruct (JsStr.startsWith s (lit "0x")).
Qed.

(** X20: the two generations of the session client accept the same
    endpoints and keep the same URL: both refuse an undefined or empty
    endpoint, and both store any other one without its one trailing
    slash. *)
Theorem legacy_session_keeps_the_same_url
        (endpoint : option jsstring) (requestConfig : option AxiosRequestConfig) :
  match Legacy.new_Session endpoint, Session.new endpoint requestConfig with
  | inr legacy, inr client => Legacy.uri legacy = url client
  | inl _, inl _ => truthy endpoint = None
  | _, _ => False
  end.
Proof.
  unfold Legacy.new_Session, Session.new.
  destruct (truthy endpoint) as [u |]; [| reflexivity].
  now destruct (JsStr.endsWith u (lit "/")).
Qed.

(* ================================================================= *)
(** ** Rejections of the transport, and the object form of [shadowDecrypt] *)

(** X21: the [meta] of a [SecretStoreSessionError] is read off the
    response: when the transport rejects the request with a response
    that has a string body, the call rejects with the composed message
    and with the [config] that response carries, be it the
    configuration of the request or not. *)
Theorem session_error_meta_is_response_config
        (axios : AxiosRequestConfig -> JsError + AxiosResponse)
        (this : SecretStoreSessionClient) (call : Session.Call)
        (log : list AxiosRequestConfig) (cfg : AxiosRequestConfig)
        (message body : jsstring) (response : AxiosResponse) :
  issued (Session.perform axios this call) log = log ++ [cfg] ->
  axios cfg = inl (AxiosError message (Some response)) ->
  data response = JsString body ->
  settled (Session.perform axios this call) log
  = inl (SecretStoreSessionError
           (statusText response ++ lit " (" ++ JsStr.ofNumber (status response)
            ++ lit "): " ++ removeEnclosingDQuotes body)
           (config response)).
Proof.
  intros Hlog Haxios Hdata.
  destruct (@perform_issued _ _ _ _ _ Hlog) as [post ->].
  rewrite Haxios. cbn [send_outcome]. now rewrite Hdata.
Qed.

Lemma session_error_meta_is_response_config_witness :
  let redirected := fun _ : AxiosRequestConfig =>
    inl (AxiosError (lit "Request failed with status code 404")
           (Some {| data := JsString (quoted (lit "not found")); status := 404;
                    statusText := lit "Not Found"; config := empty_config |}))
    : JsError + AxiosResponse in
  settled (Session.perform redirected local_node
             (Session.RetrieveDocumentKey (lit "0xdead") (lit "0xbeef"))) []
  = inl (SecretStoreSessionError (lit "Not Found (404): not found") empty_config).
Proof.
  intros redirected.
  exact (@session_error_meta_is_response_config
           redirected local_node
           (Session.RetrieveDocumentKey (lit "0xdead") (lit "0xbeef")) []
           (Session.request local_node GET
              (lit "http://127.0.0.1:8090/dead/beef") None)
           (lit "Request failed with status code 404") (quoted (lit "not found"))
           {| data := JsString (quoted (lit "not found")); status := 404;
              statusText := lit "Not Found"; config := empty_config |}
           eq_refl eq_refl eq_refl).
Defined.



(** X23: the object form of [shadowDecrypt] makes none of the tests of
    the positional form.  For a portions object that has its three
    fields, two strings and an array, each of them possibly empty, and
    whatever is passed after it, the call sends the one request with
    the fields of the object, an empty secret or common point going out
    as the bare prefix 0x and an empty array of shadows as it is. *)
Theorem shadowDecrypt_object_form_is_not_validated
        (provider_send : RpcRequest -> JsError + RpcResult)
        (account pwd encryptedDocument : jsstring) (p : DocumentKeyPortions)
        (commonPoint : option jsstring) (decryptShadows : option (list jsstring))
        (log : list RpcRequest) :
  issued (Rpc.shadowDecrypt provider_send account pwd encryptedDocument
                            (WholePortions p) commonPoint decryptShadows) log
  = log ++ [shadowDecrypt_request account pwd encryptedDocument p]
  /\ (decrypted_secret p = [] ->
      nth_error (rpc_params (shadowDecrypt_request account pwd encryptedDocument p)) 2
      = Some (PString (lit "0x")))
  /\ (portions_common_point p = [] ->
      nth_error (rpc_params (shadowDecrypt_request account pwd encryptedDocument p)) 3
      = Some (PString (lit "0x")))
  /\ (decrypt_shadows p = [] ->
      nth_error (rpc_params (shadowDecrypt_request account pwd encryptedDocument p)) 4
      = Some (PStrings [])).
Proof.
  split; [| split; [| split]];
    unfold shadowDecrypt_request; cbn [rpc_params nth_error].
  - unfold issued, Rpc.shadowDecrypt. now rewrite rpc_send_run.
  - now intros ->.
  - now intros ->.
  - now intros ->.
Qed.
